(** * kythe/go/services/filetree: the in-memory file tree

    A shallow embedding of [filetree.go]: the [Map] index
    (corpus -> root -> dirPath -> FileDirectory), its insertion
    ([AddFile], [ensureDir], [ensureCorpusRoot], [addToSet]), its queries
    ([Dir], [CorporaRoots]), the population driver ([Populate]) and the
    forwarding client with the HTTP handlers it talks to. *)

From Stdlib Require Import Ascii String.
From stdpp Require Import gmap strings list fin_maps.

Open Scope string_scope.
Open Scope nat_scope.

#[local] Set Warnings "-clear-no-such-hyp".

(** ** Go's [path/filepath] on slash-separated paths

    [filetree.go] imports [filepath.Join] and [filepath.Dir] from the Go
    standard library. They are given here for the Unix separator, on path
    elements: [filepath.Clean] drops empty and [.] elements, lets a [..]
    element cancel the element before it (or dropped at the root, or kept
    at the head of a relative path), and joins what is left. *)
Module filepath.

Definition isSlash (c : ascii) : bool := Ascii.eqb c "/"%char.

(** [strings.Split(s, "/")]: never empty; the elements hold no slash. *)
Fixpoint split_slash (s : string) : list string :=
  match s with
  | EmptyString => [EmptyString]
  | String c s' =>
      if isSlash c then EmptyString :: split_slash s'
      else match split_slash s' with
           | x :: xs => String c x :: xs
           | [] => [String c EmptyString]
           end
  end.

(** [strings.Join(l, "/")]. *)
Fixpoint join_slash (l : list string) : string :=
  match l with
  | [] => ""
  | [x] => x
  | x :: rest => x +:+ "/" +:+ join_slash rest
  end.

Definition rooted (path : string) : bool :=
  match path with
  | String c _ => isSlash c
  | EmptyString => false
  end.

(** One element of the input read by [Clean]; [out] is the output written
    so far, last element first. A [..] element on top of [out] belongs to
    the leading [../..] prefix of a relative path, which [Clean] does not
    backtrack over. *)
Definition clean_step (is_rooted : bool) (out : list string) (elem : string)
  : list string :=
  if String.eqb elem "" then out
  else if String.eqb elem "." then out
  else if String.eqb elem ".." then
    match out with
    | top :: rest =>
        if String.eqb top ".." then
          (if is_rooted then out else ".." :: out)
        else rest
    | [] => if is_rooted then [] else [".."]
    end
  else elem :: out.

Definition Clean (path : string) : string :=
  if String.eqb path "" then "."
  else
    let out := fold_left (clean_step (rooted path)) (split_slash path) [] in
    let body := join_slash (rev out) in
    if rooted path then "/" +:+ body
    else if String.eqb body "" then "." else body.

(** [filepath.Join(elem...)]: the elements from the first non-empty one
    on, joined by the separator and cleaned; the empty string if there is
    none. *)
Fixpoint Join (elem : list string) : string :=
  match elem with
  | [] => ""
  | e :: rest =>
      if String.eqb e "" then Join rest
      else Clean (join_slash (e :: rest))
  end.

Fixpoint has_slash (s : string) : bool :=
  match s with
  | EmptyString => false
  | String c s' => isSlash c || has_slash s'
  end.

(** [path[:i+1]] for [i] the index of the last separator of [path]
    (the empty string when there is none). *)
Fixpoint dir_prefix (s : string) : string :=
  match s with
  | EmptyString => ""
  | String c s' =>
      if has_slash s then String c (dir_prefix s') else ""
  end.

(** [filepath.Dir(path)]: all but the last element of [path], cleaned. *)
Definition Dir (path : string) : string := Clean (dir_prefix path).

End filepath.

(** ** Protocol buffer messages and collaborators *)

(** [storage_proto.VName], as [filetree.go] reads it. *)
Module spb.
Record VName := mkVName { Corpus : string; Root : string; Path : string }.
Record Entry := mkEntry { Source : VName; FactName : string; FactValue : string }.
Record ScanRequest := mkScanRequest { FactPrefix : string }.
End spb.

Module kytheuri.
Record URI := mkURI { Corpus : string; Root : string; Path : string }.
End kytheuri.

Module srvpb.
Record FileDirectory := mkFileDirectory
  { Subdirectory : list string; FileTicket : list string }.
Record CorpusRoots_Corpus := mkCorpus { Corpus : string; Root : list string }.
(** [CorpusRoots] has the single repeated field [Corpus]. *)
Abbreviation CorpusRoots := (list CorpusRoots_Corpus).
End srvpb.

(** Go's [error] values, by their message. *)
Abbreviation error := string (only parsing).

(** [Map.M]: corpus -> root -> dirPath -> FileDirectory. An absent key
    is Go's [nil] entry. Every [*FileDirectory] the code handles is the
    value of one slot of the innermost map and a slot is written once, so
    a store through such a pointer is an update of the record at its key. *)
Abbreviation Dirs := (gmap string srvpb.FileDirectory) (only parsing).

Record Map := mkMap
  { M : gmap string (gmap string (gmap string srvpb.FileDirectory)) }.

Definition NewMap : Map := mkMap ∅.

(** [m.M[corpus][root]] and [m.M[corpus][root][path]], [None] when any
    level is [nil]. *)
Definition dirs_at (m : Map) (corpus root : string) : option Dirs :=
  M m !! corpus ≫= (.!! root).

Definition dir_at (m : Map) (corpus root path : string)
  : option srvpb.FileDirectory :=
  dirs_at m corpus root ≫= (.!! path).

(** [dirs[path] = dir], for [dirs] the map of [corpus] and [root]. *)
Definition set_dir (m : Map) (corpus root path : string)
    (dir : srvpb.FileDirectory) : Map :=
  mkMap (alter (alter (insert path dir) root) corpus (M m)).

(** A store to a field of the record at [corpus], [root], [path]. *)
Definition update_dir (m : Map) (corpus root path : string)
    (f : srvpb.FileDirectory → srvpb.FileDirectory) : Map :=
  mkMap (alter (alter (alter f path) root) corpus (M m)).

Fixpoint contains (strs : list string) (str : string) : bool :=
  match strs with
  | [] => false
  | s :: rest => if String.eqb s str then true else contains rest str
  end.

Definition addToSet (strs : list string) (str : string) : list string :=
  if contains strs str then strs else strs ++ [str].

Definition ensureCorpusRoot (m : Map) (corpus root : string) : Map :=
  let m1 :=
    match M m !! corpus with
    | None => mkMap (<[corpus := ∅]> (M m))
    | Some _ => m
    end in
  match dirs_at m1 corpus root with
  | None => mkMap (alter (insert root ∅) corpus (M m1))
  | Some _ => m1
  end.

(** [Map.Dir]: the record and the error. *)
Definition Dir (m : Map) (corpus root path : string)
  : option srvpb.FileDirectory * option error :=
  match M m !! corpus with
  | None => (None, None)
  | Some roots =>
      match roots !! root with
      | None => (None, None)
      | Some dirs => (dirs !! path, None)
      end
  end.

(** [Map.CorporaRoots]; the order of a [range] over a Go map is not
    specified, here it is that of [map_to_list]. *)
Definition CorporaRoots (m : Map) : srvpb.CorpusRoots * option error :=
  ((λ '(corpus, rootDirs), srvpb.mkCorpus corpus (map_to_list rootDirs).*1)
     <$> map_to_list (M m), None).

(** Modelled from the spec: [graphstore.Service], the fact source that
    [Populate] scans (its code is not part of this package). [Scan]
    invokes the callback once per fact that matches the request's filter,
    in the store's order; it stops at the first error the callback returns
    and returns it. A scan can also fail on the store's side: with
    [Failure] [Some (n, err)] it delivers the first [n] matching facts and
    returns [err]. *)
Module graphstore.

Record Service := mkService
  { Facts : list spb.Entry; Failure : option (nat * error) }.

Definition matching (req : spb.ScanRequest) (entry : spb.Entry) : bool :=
  String.prefix (spb.FactPrefix req) (spb.FactName entry).

(** The facts a scan hands to its callback. *)
Definition delivered (gs : Service) (req : spb.ScanRequest) : list spb.Entry :=
  let facts := filter (λ entry, matching req entry = true) (Facts gs) in
  match Failure gs with
  | Some (n, _) => take n facts
  | None => facts
  end.

Fixpoint each {St : Type} (f : spb.Entry → St → St * option error)
    (entries : list spb.Entry) (st : St) : St * option error :=
  match entries with
  | [] => (st, None)
  | entry :: rest =>
      match f entry st with
      | (st', Some err) => (st', Some err)
      | (st', None) => each f rest st'
      end
  end.

Definition Scan {St : Type} (gs : Service) (req : spb.ScanRequest)
    (f : spb.Entry → St → St * option error) (st : St) : St * option error :=
  match each f (delivered gs req) st with
  | (st', Some err) => (st', Some err)
  | (st', None) => (st', snd <$> Failure gs)
  end.

End graphstore.

Section filetree.

(** [kytheuri.ToString] and [kytheuri.URI.String]: the formatting of a
    file's and a directory's ticket. *)
Variable ToString : spb.VName → string.
Variable URI_String : kytheuri.URI → string.

(** [schema.NodeKindFact] and [schema.FileKind]. *)
Variable NodeKindFact FileKind : string.

(** [Map.ensureDir], with the depth of the recursion bounded by [fuel];
    the [*FileDirectory] it returns is the record at [corpus], [root],
    [path] of the map it returns. *)
Fixpoint ensureDir_fuel (fuel : nat) (m : Map) (corpus root path : string)
  : option Map :=
  match fuel with
  | O => None
  | S fuel' =>
      let m1 := ensureCorpusRoot m corpus root in
      match dir_at m1 corpus root path with
      | Some _ => Some m1
      | None =>
          let m2 := set_dir m1 corpus root path (srvpb.mkFileDirectory [] []) in
          if String.eqb path "/" then Some m2
          else
            match ensureDir_fuel fuel' m2 corpus root (filepath.Dir path) with
            | None => None
            | Some m3 =>
                let uri := kytheuri.mkURI corpus root path in
                Some (update_dir m3 corpus root (filepath.Dir path)
                        (λ parent, srvpb.mkFileDirectory
                           (addToSet (srvpb.Subdirectory parent) (URI_String uri))
                           (srvpb.FileTicket parent)))
            end
      end
  end.

(** The recursion of [ensureDir] on [path] is at most this deep
    ([ensureDir_fuel_enough] below). *)
Definition depth_bound (path : string) : nat := 3 + String.length path.

(** [Map.ensureDir]. With [depth_bound path] the fuel does not run out
    ([ensureDir_eq] below), so the [None] case is never taken. *)
Definition ensureDir (m : Map) (corpus root path : string) : Map :=
  match ensureDir_fuel (depth_bound path) m corpus root path with
  | Some m' => m'
  | None => m
  end.

Definition AddFile (m : Map) (file : spb.VName) : Map :=
  let ticket := ToString file in
  let path := filepath.Join ["/"; spb.Path file] in
  let m1 := ensureDir m (spb.Corpus file) (spb.Root file) (filepath.Dir path) in
  update_dir m1 (spb.Corpus file) (spb.Root file) (filepath.Dir path)
    (λ dir, srvpb.mkFileDirectory
       (srvpb.Subdirectory dir)
       (addToSet (srvpb.FileTicket dir) ticket)).

(** A sequence of [AddFile] calls, first to last. *)
Definition AddFiles (m : Map) (files : list spb.VName) : Map :=
  fold_left AddFile files m.

(** [Map.Populate]: the index after the scan and the error returned.
    [total] only feeds the log line. *)
Definition Populate (m : Map) (gs : graphstore.Service) : Map * option error :=
  let '((m', total), err) :=
    graphstore.Scan gs (spb.mkScanRequest NodeKindFact)
      (λ entry '(m, total),
         if String.eqb (spb.FactName entry) NodeKindFact
            && String.eqb (spb.FactValue entry) FileKind
         then ((AddFile m (spb.Source entry), S total), None)
         else ((m, total), None))
      (m, 0) in
  match err with
  | Some err =>
      (m', Some ("failed to Scan GraphStore for directory structure: " +:+ err))
  | None => (m', None)
  end.

End filetree.

(** ** The [Service] interface and its remote client *)

(** [filetree.Service]: a value with the two methods. *)
Record Service := mkServiceOf
  { Service_Dir : string → string → string
                  → option srvpb.FileDirectory * option error;
    Service_CorporaRoots : srvpb.CorpusRoots * option error }.

(** [*Map] as a [Service]. *)
Definition Map_Service (m : Map) : Service :=
  mkServiceOf (Dir m) (CorporaRoots m).

Record corpusPath := mkCorpusPath
  { cp_Corpus : string; cp_Root : string; cp_Path : string }.

(** Modelled from the spec: the request/response transport of
    [kythe/go/services/web] and [net/http] (not part of this package).
    A body is given by the value it encodes, so encoding and decoding are
    inverse; [WriteResponse] answers with status 200 and the encoded
    value; [Call] sends the request to the handler that the server at
    [addr] registered for the method and decodes a status-200 answer into
    the reply, and fails when there is no server at [addr] (a transport
    failure), on any other status, and on a body of another shape. *)
Module web.

Inductive Body :=
  | BEmpty                                          (* struct{}{} *)
  | BCorpusPath (req : corpusPath)
  | BDir (dir : option srvpb.FileDirectory)         (* null for nil *)
  | BCorpusRoots (cr : srvpb.CorpusRoots)
  | BText (msg : string).

Record Request := mkRequest { URL : string; ReqBody : Body }.
Record Response := mkResponse { StatusCode : nat; RespBody : Body }.

Definition StatusOK := 200.
Definition StatusBadRequest := 400.
Definition StatusInternalServerError := 500.

Abbreviation Handler := (Request → Response) (only parsing).
Abbreviation ServeMux := (gmap string (Request → Response)) (only parsing).

(** The servers reachable by address. *)
Abbreviation Network := (string → option (gmap string (Request → Response)))
  (only parsing).

(** [http.Error(w, msg, code)]. *)
Definition Error (msg : string) (code : nat) : Response :=
  mkResponse code (BText msg).

Definition WriteResponse (v : Body) : Response := mkResponse StatusOK v.

Definition ReadJSONBody (r : Request) : corpusPath + error :=
  match ReqBody r with
  | BCorpusPath req => inl req
  | _ => inr "malformed request body"
  end.

Definition Call (net : Network) (addr method : string) (req : Body)
  : Body + error :=
  match net addr with
  | None => inr "transport failure"
  | Some mux =>
      match mux !! ("/" +:+ method) with
      | None => inr "404 page not found"
      | Some handler =>
          let resp := handler (mkRequest ("/" +:+ method) req) in
          if Nat.eqb (StatusCode resp) StatusOK then inl (RespBody resp)
          else inr "remote method call failed"
      end
  end.

End web.

(** [webClient.CorporaRoots]: the address of the reply and the error of
    the call. *)
Definition webClient_CorporaRoots (net : web.Network) (addr : string)
  : srvpb.CorpusRoots * option error :=
  match web.Call net addr "corpusRoots" web.BEmpty with
  | inl (web.BCorpusRoots cr) => (cr, None)
  | inl _ => ([], Some "cannot decode reply")
  | inr err => ([], Some err)
  end.

(** [webClient.Dir]: the reply starts as the zero [FileDirectory]; a
    [null] body leaves it so. *)
Definition webClient_Dir (net : web.Network) (addr : string)
    (corpus root path : string) : option srvpb.FileDirectory * option error :=
  let reply := srvpb.mkFileDirectory [] [] in
  match web.Call net addr "dir"
          (web.BCorpusPath (mkCorpusPath corpus root path)) with
  | inl (web.BDir (Some dir)) => (Some dir, None)
  | inl (web.BDir None) => (Some reply, None)
  | inl _ => (Some reply, Some "cannot decode reply")
  | inr err => (Some reply, Some err)
  end.

Definition WebClient (net : web.Network) (addr : string) : Service :=
  mkServiceOf (webClient_Dir net addr) (webClient_CorporaRoots net addr).

Definition RegisterHTTPHandlers (ft : Service) (mux : web.ServeMux)
  : web.ServeMux :=
  let mux1 :=
    <["/corpusRoots" :=
        λ r : web.Request,
          match Service_CorporaRoots ft with
          | (_, Some err) => web.Error err web.StatusInternalServerError
          | (cr, None) => web.WriteResponse (web.BCorpusRoots cr)
          end]> mux in
  <["/dir" :=
      λ r : web.Request,
        match web.ReadJSONBody r with
        | inr err => web.Error err web.StatusBadRequest
        | inl req =>
            match Service_Dir ft (cp_Corpus req) (cp_Root req) (cp_Path req) with
            | (_, Some err) => web.Error err web.StatusInternalServerError
            | (dir, None) => web.WriteResponse (web.BDir dir)
            end
        end]> mux1.

(** ** Notions used to state the properties *)

(** The directory [AddFile] records [file] under. *)
Definition containing_dir (file : spb.VName) : string :=
  filepath.Dir (filepath.Join ["/"; spb.Path file]).

(** The [files] set of a directory, empty when there is no record. *)
Definition files_at (m : Map) (corpus root path : string) : list string :=
  from_option srvpb.FileTicket [] (dir_at m corpus root path).

(** [dir] is [path] or lies above it: it is reached from [path] by going
    to the containing directory some number of times. *)
Definition at_or_above (dir path : string) : Prop :=
  ∃ n, Nat.iter n filepath.Dir path = dir.

Section notions.

Variable URI_String : kytheuri.URI → string.

(** What a call does to the records it does not create: other corpora
    and roots are untouched, and a record of [corpus] and [root] keeps its
    files and only gains subdirectories. *)
Record grows (m m' : Map) (corpus root : string) : Prop := mkGrows
  { grows_corpus c' : c' ≠ corpus → M m' !! c' = M m !! c';
    grows_root r' : r' ≠ root → dirs_at m' corpus r' = dirs_at m corpus r';
    grows_dir p d :
      dir_at m corpus root p = Some d →
      ∃ d', dir_at m' corpus root p = Some d'
            ∧ srvpb.FileTicket d' = srvpb.FileTicket d
            ∧ srvpb.Subdirectory d ⊆ srvpb.Subdirectory d' }.

(** The records a call of [ensureDir] on [path] creates: each is empty
    of files, lies on the way from [path] up, and is linked from its
    parent unless it is the root. *)
Definition created (m m' : Map) (corpus root path : string) : Prop :=
  ∀ p d', dir_at m' corpus root p = Some d' → dir_at m corpus root p = None →
    srvpb.FileTicket d' = []
    ∧ (∃ n, Nat.iter n filepath.Dir path = p)
    ∧ (p ≠ "/" →
       ∃ parent, dir_at m' corpus root (filepath.Dir p) = Some parent
                 ∧ URI_String (kytheuri.mkURI corpus root p)
                   ∈ srvpb.Subdirectory parent).

(** What the index holds after the files [fs] were inserted. *)
Record recorded (fs : list spb.VName) (m : Map) : Prop := mkRecorded
  { rec_corpus c :
      is_Some (M m !! c) ↔ ∃ f, f ∈ fs ∧ spb.Corpus f = c;
    rec_pair c r :
      is_Some (dirs_at m c r) ↔ ∃ f, f ∈ fs ∧ spb.Corpus f = c ∧ spb.Root f = r;
    rec_dir c r p :
      is_Some (dir_at m c r p)
      ↔ ∃ f, f ∈ fs ∧ spb.Corpus f = c ∧ spb.Root f = r
             ∧ at_or_above p (containing_dir f);
    rec_linked c r p d :
      dir_at m c r p = Some d → p ≠ "/" →
      ∃ parent, dir_at m c r (filepath.Dir p) = Some parent
                ∧ URI_String (kytheuri.mkURI c r p) ∈ srvpb.Subdirectory parent }.

End notions.

(** The facts [Populate] takes for files. *)
Definition is_file (NodeKindFact FileKind : string) (entry : spb.Entry) : Prop :=
  spb.FactName entry = NodeKindFact ∧ spb.FactValue entry = FileKind.

#[global] Instance is_file_dec NodeKindFact FileKind entry :
  Decision (is_file NodeKindFact FileKind entry).
Proof. unfold is_file. apply _. Defined.

(** ** A formatting of tickets, to run the index on concrete inputs *)

Definition demo_ToString (v : spb.VName) : string :=
  "kythe://" +:+ spb.Corpus v +:+ "?path=" +:+ spb.Path v +:+ "?root=" +:+ spb.Root v.
Definition demo_URI (u : kytheuri.URI) : string :=
  "kythe://" +:+ kytheuri.Corpus u +:+ "?path=" +:+ kytheuri.Path u +:+ "?root=" +:+ kytheuri.Root u.


(** A file with a bare path, and the index that holds it alone. *)
Definition file_ab : spb.VName := spb.mkVName "c" "" "a/b.go".
Definition index_ab : Map := AddFile demo_ToString demo_URI NewMap file_ab.

Definition file_abc : spb.VName := spb.mkVName "k" "" "/a/b/c.go".

Definition files_c1_c2 : list spb.VName :=
  [spb.mkVName "c1" "" "x.go"; spb.mkVName "c2" "r1" "lib/y.go"].

(** A store whose scan fails after its first fact. *)
Definition failing_store : graphstore.Service :=
  graphstore.mkService
    [spb.mkEntry file_ab "/kythe/node/kind" "file";
     spb.mkEntry file_abc "/kythe/node/kind" "file"]
    (Some (1, "connection reset")).

(** A network with one server, which serves [index_ab]. *)
Definition net_ab (addr : string)
  : option (gmap string (web.Request → web.Response)) :=
  if String.eqb addr "localhost:8080"
  then Some (RegisterHTTPHandlers
               (Map_Service (AddFiles demo_ToString demo_URI NewMap [file_ab])) ∅)
  else None.

(** ** Facts about the path functions *)
Module filepath_facts.
Import filepath.

(** The length of [join_slash l] plus one: an element and its separator. *)
Definition weight (l : list string) : nat :=
  sum_list ((λ e, S (String.length e)) <$> l).

(** The same, counting the non-empty elements only. *)
Definition nz_weight (l : list string) : nat :=
  sum_list ((λ e, if String.eqb e "" then 0 else S (String.length e)) <$> l).

Definition count_empty (l : list string) : nat :=
  sum_list ((λ e, if String.eqb e "" then 1 else 0) <$> l).

Lemma weight_cons x l : weight (x :: l) = S (String.length x) + weight l.
Proof. reflexivity. Qed.

Lemma nz_weight_cons x l :
  nz_weight (x :: l)
  = (if String.eqb x "" then 0 else S (String.length x)) + nz_weight l.
Proof. reflexivity. Qed.

Lemma count_empty_cons x l :
  count_empty (x :: l) = (if String.eqb x "" then 1 else 0) + count_empty l.
Proof. reflexivity. Qed.

Lemma weight_nil : weight [] = 0.
Proof. reflexivity. Qed.

Ltac weigh := rewrite ?weight_cons, ?weight_nil; simpl; try lia.

Lemma length_app (s t : string) :
  String.length (s +:+ t) = String.length s + String.length t.
Proof. induction s as [|c s IH]; simpl; [done | by rewrite IH]. Qed.

Lemma split_slash_nonempty s : split_slash s ≠ [].
Proof.
  destruct s as [|c s]; simpl; [done |].
  destruct (isSlash c); [done |]. by destruct (split_slash s).
Qed.

Lemma weight_split_slash s : weight (split_slash s) = S (String.length s).
Proof.
  induction s as [|c s IH]; [done |]. simpl split_slash.
  destruct (isSlash c).
  - rewrite weight_cons, IH. simpl. lia.
  - destruct (split_slash s) as [|x xs] eqn:E.
    + by destruct (split_slash_nonempty s).
    + rewrite weight_cons in *. simpl in *. lia.
Qed.

Lemma weight_app l1 l2 : weight (l1 ++ l2) = weight l1 + weight l2.
Proof.
  induction l1 as [|x l1 IH]; [done |].
  rewrite <- app_comm_cons, !weight_cons, IH. lia.
Qed.

Lemma count_empty_app l1 l2 :
  count_empty (l1 ++ l2) = count_empty l1 + count_empty l2.
Proof.
  induction l1 as [|x l1 IH]; [done |].
  rewrite <- app_comm_cons, !count_empty_cons, IH. lia.
Qed.

Lemma weight_rev l : weight (rev l) = weight l.
Proof.
  induction l as [|x l IH]; [done |]. simpl rev.
  rewrite weight_app, IH, !weight_cons. change (weight []) with 0. lia.
Qed.

Lemma length_join_slash l :
  String.length (join_slash l) = pred (weight l).
Proof.
  induction l as [|x l IH]; [done |].
  destruct l as [|y l]; [rewrite weight_cons; simpl; change (weight []) with 0; lia |].
  change (join_slash (x :: y :: l)) with (x +:+ "/" +:+ join_slash (y :: l)).
  rewrite !length_app, IH, !weight_cons. simpl. lia.
Qed.

Lemma nz_count_weight l : nz_weight l + count_empty l = weight l.
Proof.
  induction l as [|x l IH]; [done |].
  rewrite nz_weight_cons, count_empty_cons, weight_cons.
  destruct (String.eqb_spec x ""); subst; simpl; lia.
Qed.

Lemma clean_step_weight b out e :
  weight (clean_step b out e)
  ≤ weight out + (if String.eqb e "" then 0 else S (String.length e)).
Proof.
  unfold clean_step.
  destruct (String.eqb e ""); [lia |].
  destruct (String.eqb e "."); [lia |].
  destruct (String.eqb_spec e "..") as [->|_].
  - destruct out as [|top rest]; [destruct b; weigh |].
    destruct (String.eqb top ".."); [destruct b |]; weigh.
  - weigh.
Qed.

Lemma clean_fold_weight b l out :
  weight (fold_left (clean_step b) l out) ≤ weight out + nz_weight l.
Proof.
  revert out. induction l as [|e l IH]; intros out; simpl fold_left.
  - change (nz_weight []) with 0. lia.
  - specialize (IH (clean_step b out e)).
    pose proof (clean_step_weight b out e).
    rewrite nz_weight_cons. lia.
Qed.

Lemma split_slash_snoc s : split_slash (s +:+ "/") = (split_slash s ++ [""])%list.
Proof.
  induction s as [|c s IH]; [done |]. simpl.
  destruct (isSlash c); [by rewrite IH |].
  rewrite IH. destruct (split_slash s) as [|x xs] eqn:E; [|done].
  by destruct (split_slash_nonempty s).
Qed.

Lemma dir_prefix_cons c s :
  dir_prefix (String c s)
  = if has_slash (String c s) then String c (dir_prefix s) else "".
Proof. reflexivity. Qed.

Lemma has_slash_false_dir_prefix s : has_slash s = false → dir_prefix s = "".
Proof. destruct s as [|c s]; [done |]. intros H. by rewrite dir_prefix_cons, H. Qed.

Lemma dir_prefix_snoc s :
  has_slash s = true → ∃ q, dir_prefix s = q +:+ "/".
Proof.
  induction s as [|c s IH]; [done |]. intros H.
  rewrite dir_prefix_cons.
  rewrite H. destruct (has_slash s) eqn:Hs.
  - destruct (IH eq_refl) as [q ->]. by exists (String c q).
  - rewrite (has_slash_false_dir_prefix s Hs).
    simpl in H. rewrite Hs, orb_false_r in H.
    exists "". simpl. f_equal.
    unfold isSlash in H. apply Ascii.eqb_eq in H. by subst.
Qed.

Lemma length_dir_prefix s : String.length (dir_prefix s) ≤ String.length s.
Proof.
  induction s as [|c s IH]; [done |].
  rewrite dir_prefix_cons.
  destruct (has_slash (String c s)); simpl; lia.
Qed.

Lemma rooted_has_slash s : rooted s = true → has_slash s = true.
Proof. destruct s as [|c s]; [done |]. simpl. by intros ->. Qed.

Lemma rooted_dir_prefix s : rooted s = true → rooted (dir_prefix s) = true.
Proof.
  intros H. pose proof (rooted_has_slash s H) as Hs.
  destruct s as [|c s]; [done |].
  rewrite dir_prefix_cons.
  by rewrite Hs.
Qed.

Lemma rooted_Clean s : rooted s = true → rooted (Clean s) = true.
Proof.
  intros H. unfold Clean. destruct (String.eqb_spec s "") as [->|_]; [done |].
  by rewrite H.
Qed.

(** [Clean] of a path that ends in a separator drops at least that
    separator, unless the path is the root. *)
Lemma length_Clean_snoc q :
  String.length (Clean (q +:+ "/")) ≤ Nat.max 1 (String.length q).
Proof.
  unfold Clean.
  destruct (String.eqb_spec (q +:+ "/") "") as [E|_].
  { by destruct q. }
  set (t := q +:+ "/").
  pose proof (clean_fold_weight (rooted t) (split_slash t) []) as Hw.
  set (out := fold_left (clean_step (rooted t)) (split_slash t) []) in *.
  pose proof (nz_count_weight (split_slash t)) as Hc.
  rewrite weight_split_slash in Hc.
  assert (String.length t = S (String.length q)) as Ht.
  { unfold t. rewrite length_app. simpl. lia. }
  assert (1 ≤ count_empty (split_slash t)) as H1.
  { unfold t. rewrite split_slash_snoc, count_empty_app.
    rewrite count_empty_cons. simpl. lia. }
  assert (rooted t = true → 2 ≤ count_empty (split_slash t)) as H2.
  { unfold t. destruct q as [|c q]; [done |]. simpl. intros ->.
    rewrite split_slash_snoc, count_empty_cons, count_empty_app.
    rewrite count_empty_cons. simpl. lia. }
  change (weight []) with 0 in Hw.
  pose proof (length_join_slash (rev out)) as Hj. rewrite weight_rev in Hj.
  destruct (rooted t) eqn:Hr.
  - specialize (H2 eq_refl). rewrite length_app. simpl. lia.
  - destruct (String.eqb (join_slash (rev out)) ""); simpl; lia.
Qed.

Lemma Dir_no_slash s : has_slash s = false → Dir s = ".".
Proof. intros H. unfold Dir. by rewrite has_slash_false_dir_prefix. Qed.

Lemma Dir_root : Dir "/" = "/".
Proof. reflexivity. Qed.

Lemma Dir_dot : Dir "." = ".".
Proof. reflexivity. Qed.

Lemma Dir_rooted s : rooted s = true → rooted (Dir s) = true.
Proof. intros H. by apply rooted_Clean, rooted_dir_prefix. Qed.

(** Each step to the containing directory shortens a path that has a
    separator and is not the root. *)
Lemma Dir_shorter s :
  has_slash s = true → s ≠ "/" → String.length (Dir s) < String.length s.
Proof.
  intros Hs Hne. unfold Dir.
  destruct (dir_prefix_snoc s Hs) as [q Hq].
  pose proof (length_dir_prefix s) as Hl.
  pose proof (length_Clean_snoc q) as Hc.
  rewrite Hq in *. rewrite length_app in Hl. simpl in Hl.
  destruct q as [|c q]; [|simpl in *; lia].
  simpl in *. destruct s as [|c s]; [done |].
  destruct s as [|c' s]; [|simpl; lia].
  rewrite dir_prefix_cons, Hs in Hq. by destruct Hne.
Qed.

Lemma Join_rooted (p : string) : rooted (Join ["/"; p]) = true.
Proof. by apply rooted_Clean. Qed.

(** A rooted path reaches the root in fewer steps than it has bytes. *)
Lemma Dir_reaches_root s :
  rooted s = true → ∃ n, n < String.length s ∧ Nat.iter n Dir s = "/".
Proof.
  remember (String.length s) as k eqn:Hk. revert s Hk.
  induction k as [k IH] using lt_wf_ind. intros s -> Hr.
  destruct (decide (s = "/")) as [->|Hne].
  { exists 0. simpl. split; [lia | done]. }
  pose proof (Dir_shorter s (rooted_has_slash s Hr) Hne) as Hlt.
  destruct (IH _ Hlt (Dir s) eq_refl (Dir_rooted s Hr)) as (n & Hn & Hit).
  exists (S n). split; [lia |].
  rewrite Nat.iter_succ_r. done.
Qed.

Lemma rooted_at_or_above p q :
  rooted q = true → at_or_above p q → rooted p = true.
Proof.
  intros Hq [n <-]. induction n as [|n IH]; [done |].
  simpl. by apply Dir_rooted.
Qed.

Lemma containing_dir_rooted file : rooted (containing_dir file) = true.
Proof. apply Dir_rooted, Join_rooted. Qed.

End filepath_facts.

(** ** Facts about the stores through [dirs] and [*FileDirectory] *)
Section store_facts.
Implicit Types (m : Map) (corpus root path : string).

Lemma Map_eq m1 m2 : M m1 = M m2 → m1 = m2.
Proof. destruct m1, m2. simpl. by intros ->. Qed.

Lemma dirs_at_Some m corpus root dirs :
  dirs_at m corpus root = Some dirs
  ↔ ∃ roots, M m !! corpus = Some roots ∧ roots !! root = Some dirs.
Proof.
  unfold dirs_at. destruct (M m !! corpus) as [roots|]; simpl.
  - split; [eauto | by intros (? & [= <-] & ?)].
  - split; [done | by intros (? & ? & ?)].
Qed.

(** A store through the map of [corpus] and [root]. *)
Lemma alter_dirs_other_corpus m corpus root g c' :
  c' ≠ corpus →
  alter (alter g root) corpus (M m) !! c' = M m !! c'.
Proof. intros H. by rewrite lookup_alter_ne. Qed.

Lemma dirs_at_alter_eq m corpus root g :
  dirs_at (mkMap (alter (alter g root) corpus (M m))) corpus root
  = g <$> dirs_at m corpus root.
Proof.
  unfold dirs_at. simpl. rewrite lookup_alter_eq.
  destruct (M m !! corpus) as [roots|]; simpl; [|done].
  by rewrite lookup_alter_eq.
Qed.

Lemma dirs_at_alter_ne m corpus root g c' r' :
  (c' ≠ corpus ∨ r' ≠ root) →
  dirs_at (mkMap (alter (alter g root) corpus (M m))) c' r'
  = dirs_at m c' r'.
Proof.
  intros H. unfold dirs_at. simpl.
  destruct (decide (c' = corpus)) as [->|Hc].
  - rewrite lookup_alter_eq.
    destruct (M m !! corpus) as [roots|]; simpl; [|done].
    rewrite lookup_alter_ne; [done |].
    destruct H as [|H]; [done | congruence].
  - by rewrite lookup_alter_ne.
Qed.

Lemma dir_at_set_dir m corpus root path dir p' :
  is_Some (dirs_at m corpus root) →
  dir_at (set_dir m corpus root path dir) corpus root p'
  = if decide (p' = path) then Some dir else dir_at m corpus root p'.
Proof.
  intros [dirs Hd]. unfold dir_at, set_dir.
  rewrite dirs_at_alter_eq, Hd. simpl.
  case_decide as E; [subst; apply lookup_insert_eq |].
  by rewrite lookup_insert_ne.
Qed.

Lemma dir_at_update_dir m corpus root path f p' :
  dir_at (update_dir m corpus root path f) corpus root p'
  = if decide (p' = path) then f <$> dir_at m corpus root path
    else dir_at m corpus root p'.
Proof.
  unfold dir_at, update_dir. rewrite dirs_at_alter_eq.
  destruct (dirs_at m corpus root) as [dirs|]; simpl; [|by case_decide].
  case_decide as E; [subst; apply lookup_alter_eq |].
  by rewrite lookup_alter_ne.
Qed.

Lemma dirs_at_set_dir_ne m corpus root path dir c' r' :
  (c' ≠ corpus ∨ r' ≠ root) →
  dirs_at (set_dir m corpus root path dir) c' r' = dirs_at m c' r'.
Proof. apply dirs_at_alter_ne. Qed.

Lemma dirs_at_update_dir_ne m corpus root path f c' r' :
  (c' ≠ corpus ∨ r' ≠ root) →
  dirs_at (update_dir m corpus root path f) c' r' = dirs_at m c' r'.
Proof. apply dirs_at_alter_ne. Qed.

Lemma dirs_at_update_dir_is_Some m corpus root path f c' r' :
  is_Some (dirs_at (update_dir m corpus root path f) c' r')
  ↔ is_Some (dirs_at m c' r').
Proof.
  destruct (decide (c' = corpus ∧ r' = root)) as [[-> ->]|H].
  - unfold update_dir. rewrite dirs_at_alter_eq. apply fmap_is_Some.
  - rewrite dirs_at_update_dir_ne; [done |].
    destruct (decide (c' = corpus)); naive_solver.
Qed.

Lemma M_set_dir_other m corpus root path dir c' :
  c' ≠ corpus → M (set_dir m corpus root path dir) !! c' = M m !! c'.
Proof. apply alter_dirs_other_corpus. Qed.

Lemma M_update_dir_other m corpus root path f c' :
  c' ≠ corpus → M (update_dir m corpus root path f) !! c' = M m !! c'.
Proof. apply alter_dirs_other_corpus. Qed.

Lemma M_update_dir_is_Some m corpus root path f c' :
  is_Some (M (update_dir m corpus root path f) !! c') ↔ is_Some (M m !! c').
Proof.
  unfold update_dir. simpl. rewrite lookup_alter.
  case_decide; [subst; apply fmap_is_Some | done].
Qed.

(** [ensureCorpusRoot] *)
Lemma dirs_at_fresh_corpus m corpus root :
  dirs_at (mkMap (<[corpus:=∅]> (M m))) corpus root = None.
Proof. unfold dirs_at. simpl. rewrite lookup_insert_eq. simpl. apply lookup_empty. Qed.

Lemma ensureCorpusRoot_id m corpus root :
  is_Some (dirs_at m corpus root) → ensureCorpusRoot m corpus root = m.
Proof.
  intros [dirs Hd]. unfold ensureCorpusRoot.
  pose proof Hd as (roots & Hr & _)%dirs_at_Some.
  by rewrite Hr, Hd.
Qed.

Lemma M_ensureCorpusRoot_other m corpus root c' :
  c' ≠ corpus → M (ensureCorpusRoot m corpus root) !! c' = M m !! c'.
Proof.
  intros H. unfold ensureCorpusRoot.
  destruct (M m !! corpus) as [roots|] eqn:Hr.
  - destruct (dirs_at m corpus root); simpl; [done |].
    by rewrite lookup_alter_ne.
  - rewrite dirs_at_fresh_corpus. simpl.
    by rewrite lookup_alter_ne, lookup_insert_ne.
Qed.

Lemma dirs_at_ensureCorpusRoot_eq m corpus root :
  dirs_at (ensureCorpusRoot m corpus root) corpus root
  = Some (default ∅ (dirs_at m corpus root)).
Proof.
  unfold ensureCorpusRoot.
  destruct (M m !! corpus) as [roots|] eqn:Hr.
  - destruct (dirs_at m corpus root) as [dirs|] eqn:Hd; [by rewrite Hd |].
    unfold dirs_at in *. simpl. rewrite lookup_alter_eq, Hr. simpl.
    by rewrite lookup_insert_eq.
  - assert (dirs_at m corpus root = None) as -> by (unfold dirs_at; by rewrite Hr).
    rewrite dirs_at_fresh_corpus.
    unfold dirs_at. simpl. rewrite lookup_alter_eq, lookup_insert_eq. simpl.
    by rewrite lookup_insert_eq.
Qed.

Lemma dirs_at_ensureCorpusRoot_ne m corpus root c' r' :
  (c' ≠ corpus ∨ r' ≠ root) →
  dirs_at (ensureCorpusRoot m corpus root) c' r' = dirs_at m c' r'.
Proof.
  intros H. destruct (decide (c' = corpus)) as [->|Hc].
  - destruct H as [|Hr']; [done |].
    unfold ensureCorpusRoot.
    destruct (M m !! corpus) as [roots|] eqn:Hr.
    + destruct (dirs_at m corpus root) as [dirs|] eqn:Hd; [done |].
      unfold dirs_at. simpl. rewrite lookup_alter_eq, Hr. simpl.
      by rewrite lookup_insert_ne.
    + rewrite dirs_at_fresh_corpus.
      unfold dirs_at. simpl.
      rewrite lookup_alter_eq, lookup_insert_eq, Hr. simpl.
      by rewrite lookup_insert_ne, lookup_empty.
  - unfold dirs_at. by rewrite M_ensureCorpusRoot_other.
Qed.

Lemma dir_at_ensureCorpusRoot m corpus root c' r' p' :
  dir_at (ensureCorpusRoot m corpus root) c' r' p' = dir_at m c' r' p'.
Proof.
  unfold dir_at.
  destruct (decide (c' = corpus ∧ r' = root)) as [[-> ->]|H].
  - rewrite dirs_at_ensureCorpusRoot_eq.
    destruct (dirs_at m corpus root); simpl; [done | apply lookup_empty].
  - rewrite dirs_at_ensureCorpusRoot_ne; [done |].
    destruct (decide (c' = corpus)); naive_solver.
Qed.

Lemma Dir_dir_at m corpus root path :
  Dir m corpus root path = (dir_at m corpus root path, None).
Proof.
  unfold Dir, dir_at, dirs_at.
  destruct (M m !! corpus) as [roots|]; simpl; [|done].
  by destruct (roots !! root).
Qed.

(** A store that writes back what the record holds changes nothing. *)
Lemma update_dir_id m corpus root path f :
  (∀ d, dir_at m corpus root path = Some d → f d = d) →
  update_dir m corpus root path f = m.
Proof.
  intros H. apply Map_eq. unfold update_dir. simpl.
  apply alter_id. intros roots Hroots.
  apply alter_id. intros dirs Hdirs.
  apply alter_id. intros d Hd. apply H.
  unfold dir_at, dirs_at. rewrite Hroots. simpl. rewrite Hdirs. done.
Qed.

End store_facts.

(** ** [addToSet] *)
Section addToSet_facts.
Implicit Types (strs : list string) (str : string).

Lemma contains_elem_of strs str : contains strs str = true ↔ str ∈ strs.
Proof.
  induction strs as [|s strs IH]; simpl.
  - split; [done | by intros ?%not_elem_of_nil].
  - destruct (String.eqb_spec s str) as [->|Hne].
    + split; [intros _; apply elem_of_cons; by left | done].
    + rewrite IH, elem_of_cons. naive_solver.
Qed.

Lemma elem_of_addToSet strs str x : x ∈ addToSet strs str ↔ x ∈ strs ∨ x = str.
Proof.
  unfold addToSet. destruct (contains strs str) eqn:E.
  - apply contains_elem_of in E. naive_solver.
  - rewrite elem_of_app, list_elem_of_singleton. done.
Qed.

Lemma addToSet_subseteq strs str : strs ⊆ addToSet strs str.
Proof. intros x Hx. apply elem_of_addToSet. by left. Qed.

Lemma addToSet_NoDup strs str : NoDup strs → NoDup (addToSet strs str).
Proof.
  intros H. unfold addToSet. destruct (contains strs str) eqn:E; [done |].
  apply NoDup_app. split_and!; [done | | apply NoDup_singleton].
  intros x Hx ->%list_elem_of_singleton.
  apply contains_elem_of in Hx. congruence.
Qed.

Lemma addToSet_present strs str : str ∈ strs → addToSet strs str = strs.
Proof. intros H%contains_elem_of. unfold addToSet. by rewrite H. Qed.

Lemma addToSet_idem strs str :
  addToSet (addToSet strs str) str = addToSet strs str.
Proof. apply addToSet_present, elem_of_addToSet. by right. Qed.

End addToSet_facts.

(** ** [ensureDir] and [AddFile] *)
Section filetree_facts.

Variable ToString : spb.VName → string.
Variable URI_String : kytheuri.URI → string.

Implicit Types (m : Map) (corpus root path : string).

Local Abbreviation ensureDir_fuel := (ensureDir_fuel URI_String).
Local Abbreviation ensureDir := (ensureDir URI_String).
Local Abbreviation AddFile := (AddFile ToString URI_String).
Local Abbreviation AddFiles := (AddFiles ToString URI_String).
Local Abbreviation created := (created URI_String).
Local Abbreviation recorded := (recorded URI_String).

Lemma grows_refl m corpus root : grows m m corpus root.
Proof. split; [done | done |]. intros p d H. by exists d. Qed.

Lemma grows_trans m1 m2 m3 corpus root :
  grows m1 m2 corpus root → grows m2 m3 corpus root → grows m1 m3 corpus root.
Proof.
  intros [A1 A2 A3] [B1 B2 B3]. split.
  - intros c' H. by rewrite B1, A1.
  - intros r' H. by rewrite B2, A2.
  - intros p d H. destruct (A3 p d H) as (d2 & H2 & F2 & S2).
    destruct (B3 p d2 H2) as (d3 & H3 & F3 & S3).
    exists d3. split_and!; [done | congruence | set_solver].
Qed.

Lemma grows_ensureCorpusRoot m corpus root :
  grows m (ensureCorpusRoot m corpus root) corpus root.
Proof.
  split.
  - intros c' H. by apply M_ensureCorpusRoot_other.
  - intros r' H. apply dirs_at_ensureCorpusRoot_ne. by right.
  - intros p d H. exists d. by rewrite dir_at_ensureCorpusRoot.
Qed.

Lemma grows_set_dir m corpus root path dir :
  is_Some (dirs_at m corpus root) →
  dir_at m corpus root path = None →
  grows m (set_dir m corpus root path dir) corpus root.
Proof.
  intros Hd Hnone. split.
  - intros c' H. by apply M_set_dir_other.
  - intros r' H. apply dirs_at_set_dir_ne. by right.
  - intros p d H. exists d. rewrite dir_at_set_dir by done.
    case_decide; [congruence | done].
Qed.

Lemma grows_update_dir m corpus root path str :
  grows m
    (update_dir m corpus root path
       (λ parent, srvpb.mkFileDirectory
                    (addToSet (srvpb.Subdirectory parent) str)
                    (srvpb.FileTicket parent)))
    corpus root.
Proof.
  split.
  - intros c' H. by apply M_update_dir_other.
  - intros r' H. apply dirs_at_update_dir_ne. by right.
  - intros p d H. rewrite dir_at_update_dir. case_decide as E.
    + subst p. rewrite H. simpl. eexists. split_and!; [done | done |].
      apply addToSet_subseteq.
    + exists d. done.
Qed.

Lemma ensureDir_fuel_spec fuel m corpus root path m' :
  ensureDir_fuel fuel m corpus root path = Some m' →
  grows m m' corpus root
  ∧ is_Some (dir_at m' corpus root path)
  ∧ created m m' corpus root path.
Proof.
  revert m path m'. induction fuel as [|fuel IH]; intros m path m'; [done |].
  simpl.
  pose proof (grows_ensureCorpusRoot m corpus root) as G1.
  pose proof (dirs_at_ensureCorpusRoot_eq m corpus root) as Hdirs.
  set (m1 := ensureCorpusRoot m corpus root) in *.
  destruct (dir_at m1 corpus root path) as [d|] eqn:Hp.
  { intros [= <-]. split_and!; [done | by rewrite Hp |].
    intros p d' H1 H2. unfold m1 in H1.
    rewrite dir_at_ensureCorpusRoot in H1. congruence. }
  assert (is_Some (dirs_at m1 corpus root)) as Hsome by (by rewrite Hdirs).
  pose proof (grows_set_dir m1 corpus root path (srvpb.mkFileDirectory [] [])
                Hsome Hp) as G2.
  pose proof (dir_at_set_dir m1 corpus root path (srvpb.mkFileDirectory [] [])) as Hset.
  set (m2 := set_dir m1 corpus root path (srvpb.mkFileDirectory [] [])) in *.
  assert (∀ p, p ≠ path → dir_at m2 corpus root p = dir_at m corpus root p) as Hold.
  { intros p Hne. rewrite Hset by done. case_decide; [done |].
    apply dir_at_ensureCorpusRoot. }
  assert (dir_at m2 corpus root path = Some (srvpb.mkFileDirectory [] [])) as Hnew.
  { rewrite Hset by done. by case_decide. }
  destruct (String.eqb_spec path "/") as [->|Hne].
  { intros [= <-]. split_and!.
    - by eapply grows_trans.
    - by rewrite Hnew.
    - intros p d' H1 H2. destruct (decide (p = "/")) as [->|Hp'].
      + rewrite Hnew in H1. injection H1 as <-.
        split_and!; [done | by exists 0 | done].
      + rewrite Hold in H1 by done. congruence. }
  destruct (ensureDir_fuel fuel m2 corpus root (filepath.Dir path))
    as [m3|] eqn:Hrec; [|done].
  intros [= <-].
  destruct (IH _ _ _ Hrec) as (G3 & [parent Hparent] & C3).
  pose proof (grows_update_dir m3 corpus root (filepath.Dir path)
                (URI_String (kytheuri.mkURI corpus root path))) as G4.
  set (m4 := update_dir m3 _ _ _ _) in *.
  assert (grows m2 m4 corpus root) as G24 by (by eapply grows_trans).
  split_and!.
  - eapply grows_trans; [done |]. by eapply grows_trans.
  - destruct (grows_dir _ _ _ _ G24 _ _ Hnew) as (d' & -> & _). done.
  - intros p d' H1 H2.
    destruct (decide (p = path)) as [->|Hp'].
    + destruct (grows_dir _ _ _ _ G24 _ _ Hnew) as (d'' & H1' & HF & _).
      rewrite H1 in H1'. injection H1' as <-.
      split_and!; [done | by exists 0 |]. intros _.
      unfold m4. rewrite dir_at_update_dir, decide_True by done.
      rewrite Hparent. simpl. eexists. split; [done |]. simpl.
      apply elem_of_addToSet. by right.
    + assert (dir_at m2 corpus root p = None) as H2'
        by (by rewrite Hold).
      assert (∃ d3, dir_at m3 corpus root p = Some d3
                    ∧ srvpb.FileTicket d' = srvpb.FileTicket d3) as (d3 & H3 & HF).
      { unfold m4 in H1. rewrite dir_at_update_dir in H1.
        case_decide as E.
        - subst p. rewrite Hparent in *. simpl in H1. injection H1 as <-.
          by eexists.
        - by eexists. }
      destruct (C3 p d3 H3 H2') as (HF3 & [n Hn] & Hlink).
      split_and!; [congruence | |].
      * exists (S n). by rewrite Nat.iter_succ_r.
      * intros Hroot. destruct (Hlink Hroot) as (par3 & Hpar3 & Hin).
        destruct (grows_dir _ _ _ _ G4 _ _ Hpar3) as (par4 & Hpar4 & _ & Hsub).
        exists par4. split; [done | by apply Hsub].
Qed.

(** The recursion ends within the bound. A path with no separator has
    the containing directory ["."], which is its own containing directory:
    there the second visit finds the record the first one stored. *)
Lemma ensureDir_fuel_S fuel m corpus root path :
  ensureDir_fuel (S fuel) m corpus root path
  = let m1 := ensureCorpusRoot m corpus root in
    match dir_at m1 corpus root path with
    | Some _ => Some m1
    | None =>
        let m2 := set_dir m1 corpus root path (srvpb.mkFileDirectory [] []) in
        if String.eqb path "/" then Some m2
        else
          match ensureDir_fuel fuel m2 corpus root (filepath.Dir path) with
          | None => None
          | Some m3 =>
              Some (update_dir m3 corpus root (filepath.Dir path)
                      (λ parent, srvpb.mkFileDirectory
                         (addToSet (srvpb.Subdirectory parent)
                            (URI_String (kytheuri.mkURI corpus root path)))
                         (srvpb.FileTicket parent)))
          end
    end.
Proof. reflexivity. Qed.

Lemma ensureDir_fuel_dot fuel m corpus root :
  is_Some (ensureDir_fuel (2 + fuel) m corpus root ".").
Proof.
  change (2 + fuel) with (S (S fuel)). rewrite ensureDir_fuel_S. cbv zeta.
  destruct (dir_at (ensureCorpusRoot m corpus root) corpus root ".") eqn:E; [done |].
  change (String.eqb "." "/") with false. cbv iota.
  change (filepath.Dir ".") with ".".
  set (m2 := set_dir _ _ _ _ _).
  rewrite ensureDir_fuel_S. cbv zeta.
  assert (dir_at m2 corpus root "." = Some (srvpb.mkFileDirectory [] [])) as H2.
  { unfold m2. rewrite dir_at_set_dir.
    - by case_decide.
    - by rewrite dirs_at_ensureCorpusRoot_eq. }
  rewrite dir_at_ensureCorpusRoot, H2. done.
Qed.

Lemma ensureDir_fuel_enough fuel m corpus root path :
  depth_bound path ≤ fuel → is_Some (ensureDir_fuel fuel m corpus root path).
Proof.
  unfold depth_bound. revert m path.
  induction fuel as [|fuel IH]; intros m path Hle; [lia |].
  rewrite ensureDir_fuel_S. cbv zeta.
  destruct (dir_at (ensureCorpusRoot m corpus root) corpus root path); [done |].
  destruct (String.eqb_spec path "/") as [->|Hne]; [done |].
  set (m2 := set_dir _ _ _ _ _).
  assert (is_Some (ensureDir_fuel fuel m2 corpus root (filepath.Dir path))) as [m3 ->]; [|done].
  destruct (filepath.has_slash path) eqn:Hs.
  - apply IH. pose proof (filepath_facts.Dir_shorter path Hs Hne). lia.
  - rewrite (filepath_facts.Dir_no_slash path Hs).
    destruct fuel as [|[|fuel]]; [lia | lia |]. apply ensureDir_fuel_dot.
Qed.

(** On a rooted path the recursion is no deeper than the path is long. *)
Lemma ensureDir_fuel_rooted fuel m corpus root path :
  filepath.rooted path = true → String.length path ≤ fuel →
  is_Some (ensureDir_fuel fuel m corpus root path).
Proof.
  revert m path.
  induction fuel as [|fuel IH]; intros m path Hr Hle.
  { destruct path; simpl in *; [done | lia]. }
  rewrite ensureDir_fuel_S. cbv zeta.
  destruct (dir_at (ensureCorpusRoot m corpus root) corpus root path); [done |].
  destruct (String.eqb_spec path "/") as [->|Hne]; [done |].
  set (m2 := set_dir _ _ _ _ _).
  assert (is_Some (ensureDir_fuel fuel m2 corpus root (filepath.Dir path))) as [m3 ->]; [|done].
  apply IH; [by apply filepath_facts.Dir_rooted |].
  pose proof (filepath_facts.Dir_shorter path
                (filepath_facts.rooted_has_slash path Hr) Hne). lia.
Qed.

(** More fuel does not change a result. *)
Lemma ensureDir_fuel_more fuel fuel' m corpus root path m' :
  ensureDir_fuel fuel m corpus root path = Some m' → fuel ≤ fuel' →
  ensureDir_fuel fuel' m corpus root path = Some m'.
Proof.
  revert fuel' m path m'.
  induction fuel as [|fuel IH]; intros fuel' m path m' H Hle; [done |].
  destruct fuel' as [|fuel']; [lia |]. rewrite ensureDir_fuel_S in *. cbv zeta in *.
  destruct (dir_at (ensureCorpusRoot m corpus root) corpus root path); [done |].
  destruct (String.eqb path "/"); [done |].
  destruct (ensureDir_fuel fuel _ corpus root (filepath.Dir path)) as [m3|] eqn:E; [|done].
  rewrite (IH fuel' _ _ m3 E) by lia. done.
Qed.

Lemma ensureDir_eq m corpus root path :
  ensureDir_fuel (depth_bound path) m corpus root path
  = Some (ensureDir m corpus root path).
Proof.
  unfold ensureDir.
  by destruct (ensureDir_fuel_enough (depth_bound path) m corpus root path
                 (Nat.le_refl _)) as [m' ->].
Qed.

Lemma ensureDir_spec m corpus root path :
  grows m (ensureDir m corpus root path) corpus root
  ∧ is_Some (dir_at (ensureDir m corpus root path) corpus root path)
  ∧ created m (ensureDir m corpus root path) corpus root path.
Proof. eapply ensureDir_fuel_spec, ensureDir_eq. Qed.

(** A directory that is recorded is returned as it is. *)
Lemma ensureDir_present m corpus root path :
  is_Some (dir_at m corpus root path) → ensureDir m corpus root path = m.
Proof.
  intros [d Hd].
  assert (is_Some (dirs_at m corpus root)) as Hdirs.
  { unfold dir_at in Hd. by destruct (dirs_at m corpus root). }
  pose proof (ensureDir_eq m corpus root path) as E.
  unfold depth_bound in E. change (3 + ?n) with (S (2 + n)) in E.
  rewrite ensureDir_fuel_S in E. cbv zeta in E.
  rewrite (ensureCorpusRoot_id m corpus root Hdirs), Hd in E. congruence.
Qed.

(** *** One insertion *)

Lemma AddFile_unfold m file :
  AddFile m file
  = update_dir (ensureDir m (spb.Corpus file) (spb.Root file) (containing_dir file))
      (spb.Corpus file) (spb.Root file) (containing_dir file)
      (λ dir, srvpb.mkFileDirectory (srvpb.Subdirectory dir)
                (addToSet (srvpb.FileTicket dir) (ToString file))).
Proof. reflexivity. Qed.

Lemma AddFile_other_corpus m file c' :
  c' ≠ spb.Corpus file → M (AddFile m file) !! c' = M m !! c'.
Proof.
  intros H. rewrite AddFile_unfold, M_update_dir_other by done.
  by apply (ensureDir_spec m).
Qed.

Lemma AddFile_other_root m file r' :
  r' ≠ spb.Root file →
  dirs_at (AddFile m file) (spb.Corpus file) r' = dirs_at m (spb.Corpus file) r'.
Proof.
  intros H. rewrite AddFile_unfold, dirs_at_update_dir_ne by (by right).
  by apply (ensureDir_spec m).
Qed.

Lemma AddFile_other_pair m file c' r' :
  (c' ≠ spb.Corpus file ∨ r' ≠ spb.Root file) →
  dirs_at (AddFile m file) c' r' = dirs_at m c' r'.
Proof.
  intros H. destruct (decide (c' = spb.Corpus file)) as [->|Hc].
  - destruct H as [|H]; [done |]. by apply AddFile_other_root.
  - unfold dirs_at. by rewrite AddFile_other_corpus.
Qed.

(** The record of the containing directory after the insertion. *)
Lemma AddFile_containing_dir m file :
  ∃ d', dir_at (AddFile m file) (spb.Corpus file) (spb.Root file)
          (containing_dir file) = Some d'
        ∧ srvpb.FileTicket d'
          = addToSet (files_at m (spb.Corpus file) (spb.Root file)
                        (containing_dir file)) (ToString file).
Proof.
  rewrite AddFile_unfold, dir_at_update_dir, decide_True by done.
  destruct (ensureDir_spec m (spb.Corpus file) (spb.Root file)
              (containing_dir file)) as (G & [d1 H1] & C).
  rewrite H1. simpl. eexists. split; [done |]. simpl.
  unfold files_at.
  destruct (dir_at m (spb.Corpus file) (spb.Root file) (containing_dir file))
    as [d|] eqn:E; simpl.
  - destruct (grows_dir _ _ _ _ G _ _ E) as (d1' & H1' & HF & _).
    rewrite H1 in H1'. injection H1' as <-. by rewrite HF.
  - by destruct (C _ _ H1 E) as (-> & _).
Qed.

(** A record that was there keeps its subdirectories, and its files
    unless it is the containing directory. *)
Lemma AddFile_old_dir m file p d :
  dir_at m (spb.Corpus file) (spb.Root file) p = Some d →
  ∃ d', dir_at (AddFile m file) (spb.Corpus file) (spb.Root file) p = Some d'
        ∧ srvpb.Subdirectory d ⊆ srvpb.Subdirectory d'
        ∧ srvpb.FileTicket d ⊆ srvpb.FileTicket d'
        ∧ (p ≠ containing_dir file → srvpb.FileTicket d' = srvpb.FileTicket d).
Proof.
  intros H.
  destruct (ensureDir_spec m (spb.Corpus file) (spb.Root file)
              (containing_dir file)) as (G & _ & _).
  destruct (grows_dir _ _ _ _ G _ _ H) as (d1 & H1 & HF & HS).
  rewrite AddFile_unfold, dir_at_update_dir. case_decide as E.
  - subst p. rewrite H1. simpl. eexists. split; [done |]. simpl.
    split_and!; [done | | done].
    rewrite <- HF. apply addToSet_subseteq.
  - exists d1. split_and!; [done | done | by rewrite HF | done].
Qed.

(** A record the insertion creates. *)
Lemma AddFile_new_dir m file p d' :
  dir_at (AddFile m file) (spb.Corpus file) (spb.Root file) p = Some d' →
  dir_at m (spb.Corpus file) (spb.Root file) p = None →
  (p ≠ containing_dir file → srvpb.FileTicket d' = [])
  ∧ at_or_above p (containing_dir file)
  ∧ (p ≠ "/" →
     ∃ parent,
       dir_at (AddFile m file) (spb.Corpus file) (spb.Root file)
         (filepath.Dir p) = Some parent
       ∧ URI_String (kytheuri.mkURI (spb.Corpus file) (spb.Root file) p)
         ∈ srvpb.Subdirectory parent).
Proof.
  intros H' H.
  destruct (ensureDir_spec m (spb.Corpus file) (spb.Root file)
              (containing_dir file)) as (G & _ & C).
  set (m1 := ensureDir m _ _ _) in *.
  assert (∀ q d1, dir_at m1 (spb.Corpus file) (spb.Root file) q = Some d1 →
            ∃ d2, dir_at (AddFile m file) (spb.Corpus file) (spb.Root file) q
                  = Some d2
                  ∧ srvpb.Subdirectory d2 = srvpb.Subdirectory d1) as Hup.
  { intros q d1 Hq. rewrite AddFile_unfold, dir_at_update_dir.
    fold m1. case_decide as E.
    - subst q. rewrite Hq. simpl. by eexists.
    - by exists d1. }
  assert (∃ d1, dir_at m1 (spb.Corpus file) (spb.Root file) p = Some d1
                ∧ (p ≠ containing_dir file →
                   srvpb.FileTicket d' = srvpb.FileTicket d1)) as (d1 & H1 & HF).
  { rewrite AddFile_unfold, dir_at_update_dir in H'. fold m1 in H'.
    case_decide as E.
    - subst p.
      destruct (dir_at m1 _ _ (containing_dir file)) as [d1|]; [|done].
      exists d1. done.
    - exists d'. done. }
  destruct (C p d1 H1 H) as (HF1 & Hchain & Hlink).
  split_and!; [intros E; rewrite HF by done; done | done |].
  intros Hroot. destruct (Hlink Hroot) as (par & Hpar & Hin).
  destruct (Hup _ _ Hpar) as (par2 & Hpar2 & HS).
  exists par2. by rewrite HS.
Qed.

Lemma AddFile_other_pair_dir m file c' r' p :
  (c' ≠ spb.Corpus file ∨ r' ≠ spb.Root file) →
  dir_at (AddFile m file) c' r' p = dir_at m c' r' p.
Proof. intros H. unfold dir_at. by rewrite AddFile_other_pair. Qed.

Lemma dir_at_dirs_at m corpus root path :
  is_Some (dir_at m corpus root path) → is_Some (dirs_at m corpus root).
Proof. unfold dir_at. destruct (dirs_at m corpus root); [done | by intros []]. Qed.

Lemma dirs_at_M m corpus root :
  is_Some (dirs_at m corpus root) → is_Some (M m !! corpus).
Proof. unfold dirs_at. destruct (M m !! corpus); [done | by intros []]. Qed.

(** *** A sequence of insertions into the empty index *)

Lemma recorded_NewMap : recorded [] NewMap.
Proof.
  split.
  - intros c. simpl. rewrite lookup_empty. split; [by intros [] |].
    by intros (f & ?%not_elem_of_nil & _).
  - intros c r. unfold dirs_at. simpl. rewrite lookup_empty. simpl.
    split; [by intros [] |]. by intros (f & ?%not_elem_of_nil & _).
  - intros c r p. unfold dir_at, dirs_at. simpl. rewrite lookup_empty. simpl.
    split; [by intros [] |]. by intros (f & ?%not_elem_of_nil & _).
  - intros c r p d. unfold dir_at, dirs_at. simpl. by rewrite lookup_empty.
Qed.

Lemma AddFile_linked m file :
  (∀ c r p d, dir_at m c r p = Some d → p ≠ "/" →
     ∃ parent, dir_at m c r (filepath.Dir p) = Some parent
               ∧ URI_String (kytheuri.mkURI c r p) ∈ srvpb.Subdirectory parent) →
  ∀ c r p d, dir_at (AddFile m file) c r p = Some d → p ≠ "/" →
     ∃ parent, dir_at (AddFile m file) c r (filepath.Dir p) = Some parent
               ∧ URI_String (kytheuri.mkURI c r p) ∈ srvpb.Subdirectory parent.
Proof.
  intros IH c r p d H Hroot.
  destruct (decide (c = spb.Corpus file ∧ r = spb.Root file)) as [[-> ->]|Hne].
  - destruct (dir_at m (spb.Corpus file) (spb.Root file) p) as [d0|] eqn:E.
    + destruct (IH _ _ _ _ E Hroot) as (par & Hpar & Hin).
      destruct (AddFile_old_dir m file _ _ Hpar) as (par' & Hpar' & HS & _).
      exists par'. split; [done | by apply HS].
    + by destruct (AddFile_new_dir m file p d H E) as (_ & _ & Hlink); auto.
  - assert (c ≠ spb.Corpus file ∨ r ≠ spb.Root file) as Hor.
    { destruct (decide (c = spb.Corpus file)); [right | left]; naive_solver. }
    rewrite AddFile_other_pair_dir in * by done. eauto.
Qed.

(** With the parent links in place, every directory on the way up from
    a recorded one is recorded. *)
Lemma linked_above m c r p q :
  (∀ p d, dir_at m c r p = Some d → p ≠ "/" →
     is_Some (dir_at m c r (filepath.Dir p))) →
  is_Some (dir_at m c r p) → at_or_above q p → is_Some (dir_at m c r q).
Proof.
  intros Hlink Hp [n <-]. induction n as [|n IH]; [done |]. simpl.
  destruct IH as [d Hd].
  destruct (decide (Nat.iter n filepath.Dir p = "/")) as [E|E].
  - rewrite E in *. by rewrite filepath_facts.Dir_root, Hd.
  - eauto.
Qed.

Lemma recorded_AddFile fs m file :
  recorded fs m → recorded (fs ++ [file]) (AddFile m file).
Proof.
  intros [Hc Hp Hd Hl].
  destruct (AddFile_containing_dir m file) as (dnew & Hnew & _).
  assert (is_Some (dirs_at (AddFile m file) (spb.Corpus file) (spb.Root file)))
    as Hpair by (eapply dir_at_dirs_at; by rewrite Hnew).
  pose proof (AddFile_linked m file Hl) as Hl'.
  split; [| | |done].
  - intros c. destruct (decide (c = spb.Corpus file)) as [->|Hne].
    + split; [|intros _; by eapply dirs_at_M].
      intros _. exists file. split; [|done]. apply elem_of_app. right.
      by apply list_elem_of_singleton.
    + rewrite AddFile_other_corpus, Hc by done.
      split; intros (f & Hf & E); exists f.
      * split; [|done]. apply elem_of_app. by left.
      * split; [|done]. apply elem_of_app in Hf as [| ->%list_elem_of_singleton];
          [done | congruence].
  - intros c r.
    destruct (decide (c = spb.Corpus file ∧ r = spb.Root file)) as [[-> ->]|Hne].
    + split; [|done]. intros _. exists file. split; [|done].
      apply elem_of_app. right. by apply list_elem_of_singleton.
    + assert (c ≠ spb.Corpus file ∨ r ≠ spb.Root file) as Hor.
      { destruct (decide (c = spb.Corpus file)); [right | left]; naive_solver. }
      rewrite AddFile_other_pair, Hp by done.
      split; intros (f & Hf & E1 & E2); exists f.
      * split; [|done]. apply elem_of_app. by left.
      * split; [|done]. apply elem_of_app in Hf as [| ->%list_elem_of_singleton];
          [done | naive_solver].
  - intros c r p.
    destruct (decide (c = spb.Corpus file ∧ r = spb.Root file)) as [[-> ->]|Hne].
    + split.
      * intros [d' H'].
        destruct (dir_at m (spb.Corpus file) (spb.Root file) p) as [d0|] eqn:E.
        -- destruct (proj1 (Hd (spb.Corpus file) (spb.Root file) p)) as (f & Hf & ?);
             [by rewrite E |].
           exists f. split; [|done]. apply elem_of_app. by left.
        -- destruct (AddFile_new_dir m file p d' H' E) as (_ & Habove & _).
           exists file. split_and!; [|done..].
           apply elem_of_app. right. by apply list_elem_of_singleton.
      * intros (f & Hf & E1 & E2 & Habove).
        apply elem_of_app in Hf as [Hf| ->%list_elem_of_singleton].
        -- destruct (proj2 (Hd (spb.Corpus file) (spb.Root file) p)) as [d0 H0];
             [by exists f |].
           destruct (AddFile_old_dir m file p d0 H0) as (d' & -> & _). done.
        -- eapply linked_above; [| by rewrite Hnew | done].
           intros q dq Hq Hroot.
           destruct (Hl' _ _ _ _ Hq Hroot) as (par & -> & _). done.
    + assert (c ≠ spb.Corpus file ∨ r ≠ spb.Root file) as Hor.
      { destruct (decide (c = spb.Corpus file)); [right | left]; naive_solver. }
      rewrite AddFile_other_pair_dir, Hd by done.
      split; intros (f & Hf & E1 & E2 & E3); exists f.
      * split; [|done]. apply elem_of_app. by left.
      * split; [|done]. apply elem_of_app in Hf as [| ->%list_elem_of_singleton];
          [done | naive_solver].
Qed.

Lemma recorded_AddFiles fs0 m fs :
  recorded fs0 m → recorded (fs0 ++ fs) (AddFiles m fs).
Proof.
  revert fs0 m. induction fs as [|f fs IH]; intros fs0 m H.
  - by rewrite app_nil_r.
  - simpl. rewrite (cons_middle f fs0 fs), app_assoc.
    apply IH, recorded_AddFile, H.
Qed.

Lemma recorded_from_empty fs : recorded fs (AddFiles NewMap fs).
Proof. apply (recorded_AddFiles [] NewMap fs), recorded_NewMap. Qed.

End filetree_facts.

(** ** [CorporaRoots] *)
Section CorporaRoots_facts.
Implicit Types (m : Map).

Lemma elem_of_CorporaRoots m c roots :
  srvpb.mkCorpus c roots ∈ fst (CorporaRoots m)
  ↔ ∃ rootDirs, M m !! c = Some rootDirs ∧ roots = (map_to_list rootDirs).*1.
Proof.
  unfold CorporaRoots. simpl. rewrite list_elem_of_fmap. split.
  - intros ([c' rootDirs] & [= -> ->] & Hin%elem_of_map_to_list). eauto.
  - intros (rootDirs & Hm & ->). exists (c, rootDirs).
    split; [done | by apply elem_of_map_to_list].
Qed.

Lemma elem_of_keys {A} (dirs : gmap string A) k :
  k ∈ (map_to_list dirs).*1 ↔ is_Some (dirs !! k).
Proof.
  rewrite list_elem_of_fmap. split.
  - intros ([k' x] & -> & Hin%elem_of_map_to_list). by exists x.
  - intros [x Hx]. exists (k, x). split; [done | by apply elem_of_map_to_list].
Qed.

Lemma CorporaRoots_corpora m :
  srvpb.Corpus <$> fst (CorporaRoots m) = (map_to_list (M m)).*1.
Proof.
  unfold CorporaRoots. simpl. rewrite <- list_fmap_compose.
  apply list_fmap_ext. by intros _ [c rootDirs] _.
Qed.

Lemma NoDup_only (l : list string) (a : string) :
  NoDup l → (∀ x, x ∈ l ↔ x = a) → l = [a].
Proof.
  intros Hnd H. apply Permutation_singleton_r.
  apply NoDup_Permutation; [done | apply NoDup_singleton |].
  intros x. by rewrite H, list_elem_of_singleton.
Qed.

End CorporaRoots_facts.

(** ** [Populate] *)
Section Populate_facts.

Variable ToString : spb.VName → string.
Variable URI_String : kytheuri.URI → string.
Variable NodeKindFact FileKind : string.

Local Abbreviation AddFiles := (AddFiles ToString URI_String).
Local Abbreviation Populate := (Populate ToString URI_String NodeKindFact FileKind).

Lemma prefix_refl (s : string) : String.prefix s s = true.
Proof.
  induction s as [|c s IH]; [done |]. simpl.
  by destruct (Ascii.ascii_dec c c).
Qed.

Lemma each_callback (entries : list spb.Entry) (m : Map) (total : nat) :
  graphstore.each
    (λ entry '(m, total),
       if String.eqb (spb.FactName entry) NodeKindFact
          && String.eqb (spb.FactValue entry) FileKind
       then ((AddFile ToString URI_String m (spb.Source entry), S total), None)
       else ((m, total), None))
    entries (m, total)
  = ((AddFiles m (spb.Source <$> filter (is_file NodeKindFact FileKind) entries),
      total + length (filter (is_file NodeKindFact FileKind) entries)),
     None).
Proof.
  revert m total. induction entries as [|e entries IH]; intros m total.
  { simpl. by rewrite Nat.add_0_r. }
  simpl. unfold filter at 1 2. simpl. fold (filter (is_file NodeKindFact FileKind) entries).
  destruct (String.eqb_spec (spb.FactName e) NodeKindFact) as [E1|E1];
    destruct (String.eqb_spec (spb.FactValue e) FileKind) as [E2|E2]; simpl.
  - rewrite IH. rewrite decide_True by done. simpl. do 2 f_equal. lia.
  - rewrite IH. rewrite decide_False by (by intros [_ ?]). done.
  - rewrite IH. rewrite decide_False by (by intros [? _]). done.
  - rewrite IH. rewrite decide_False by (by intros [? _]). done.
Qed.

Lemma Populate_eq (m : Map) (gs : graphstore.Service) :
  Populate m gs
  = (AddFiles m
       (spb.Source <$> filter (is_file NodeKindFact FileKind)
          (graphstore.delivered gs (spb.mkScanRequest NodeKindFact))),
     (λ '(_, err),
        "failed to Scan GraphStore for directory structure: " +:+ err)
       <$> graphstore.Failure gs).
Proof.
  unfold Populate, graphstore.Scan. rewrite each_callback.
  by destruct (graphstore.Failure gs) as [[n err]|].
Qed.

Lemma filter_is_file_matching (entries : list spb.Entry) :
  filter (is_file NodeKindFact FileKind)
    (filter (λ entry,
       graphstore.matching (spb.mkScanRequest NodeKindFact) entry = true) entries)
  = filter (is_file NodeKindFact FileKind) entries.
Proof.
  rewrite list_filter_filter. apply list_filter_iff.
  intros e. split; [by intros [? _] |]. intros [E1 E2]. split; [done |].
  unfold graphstore.matching. simpl. rewrite E1. apply prefix_refl.
Qed.

End Populate_facts.

(** ** The properties of the index *)
Section filetree_properties.

Variable ToString : spb.VName → string.
Variable URI_String : kytheuri.URI → string.

Local Abbreviation ensureDir_fuel := (ensureDir_fuel URI_String).
Local Abbreviation ensureDir := (ensureDir URI_String).
Local Abbreviation AddFile := (AddFile ToString URI_String).
Local Abbreviation AddFiles := (AddFiles ToString URI_String).
Local Abbreviation recorded_from_empty := (recorded_from_empty ToString URI_String).

Variable NodeKindFact FileKind : string.

Local Abbreviation Populate := (Populate ToString URI_String NodeKindFact FileKind).

(** C1, as amended: [Dir] looks its path argument up as it is given,
    without normalizing it. The result is the record stored under that
    very string; after a file with the bare path ["a/b.go"] was inserted,
    the record of its directory is found under ["/a"], the spelling the
    insertion stored it under, and holds the file's ticket; a path that
    does not begin with ["/"] finds nothing in an index built by
    insertions. *)
Theorem Dir_looks_up_verbatim (m : Map) (corpus root : string) :
  (∀ c r path, Dir m c r path = (dir_at m c r path, None))
  ∧ (∃ d, Dir (AddFile m (spb.mkVName corpus root "a/b.go")) corpus root "/a"
          = (Some d, None)
          ∧ ToString (spb.mkVName corpus root "a/b.go") ∈ srvpb.FileTicket d)
  ∧ (∀ fs c r path, filepath.rooted path = false →
       Dir (AddFiles NewMap fs) c r path = (None, None)).
Proof.
  split_and!.
  - apply Dir_dir_at.
  - destruct (AddFile_containing_dir ToString URI_String m
                (spb.mkVName corpus root "a/b.go")) as (d & Hd & HF).
    exists d. rewrite Dir_dir_at. split; [by rewrite <- Hd |].
    rewrite HF. apply elem_of_addToSet. by right.
  - intros fs c r path Hr. rewrite Dir_dir_at.
    destruct (dir_at (AddFiles NewMap fs) c r path) as [d|] eqn:E; [|done].
    destruct (proj1 (rec_dir _ _ _ (recorded_from_empty fs) c r path))
      as (f & _ & _ & _ & Habove); [by rewrite E |].
    pose proof (filepath_facts.rooted_at_or_above _ _
                  (filepath_facts.containing_dir_rooted f) Habove).
    congruence.
Qed.

(** C2: after any sequence of [AddFile] calls on the empty index, a
    record exists for a directory exactly when some inserted file of that
    corpus and root lies in it or below it, and the record of the parent
    of every recorded directory other than ["/"] lists that directory's
    ticket among its subdirectories. In particular a file at
    ["/a/b/c.go"] leaves records for ["/"], ["/a"] and ["/a/b"], with
    ["/a/b"] listed in ["/a"] and ["/a"] listed in ["/"]. *)
Theorem ancestors_recorded_and_linked (fs : list spb.VName) :
  (∀ c r p,
     is_Some (fst (Dir (AddFiles NewMap fs) c r p))
     ↔ ∃ f, f ∈ fs ∧ spb.Corpus f = c ∧ spb.Root f = r
            ∧ at_or_above p (containing_dir f))
  ∧ (∀ c r p d,
       fst (Dir (AddFiles NewMap fs) c r p) = Some d → p ≠ "/" →
       ∃ parent,
         fst (Dir (AddFiles NewMap fs) c r (filepath.Dir p)) = Some parent
         ∧ URI_String (kytheuri.mkURI c r p) ∈ srvpb.Subdirectory parent)
  ∧ (∀ c r, spb.mkVName c r "/a/b/c.go" ∈ fs →
       ∃ d_root d_a d_ab,
         fst (Dir (AddFiles NewMap fs) c r "/") = Some d_root
         ∧ fst (Dir (AddFiles NewMap fs) c r "/a") = Some d_a
         ∧ fst (Dir (AddFiles NewMap fs) c r "/a/b") = Some d_ab
         ∧ URI_String (kytheuri.mkURI c r "/a/b") ∈ srvpb.Subdirectory d_a
         ∧ URI_String (kytheuri.mkURI c r "/a") ∈ srvpb.Subdirectory d_root).
Proof.
  pose proof (recorded_from_empty fs) as [_ _ Hd Hl].
  split_and!.
  - intros c r p. rewrite Dir_dir_at. apply Hd.
  - intros c r p d. rewrite !Dir_dir_at. apply Hl.
  - intros c r Hin.
    destruct (proj2 (Hd c r "/a/b")) as [d_ab Hab].
    { eexists. split_and!; [done | done | done | by exists 0]. }
    destruct (Hl c r "/a/b" d_ab Hab) as (d_a & Ha & Hin_a); [done |].
    change (filepath.Dir "/a/b") with "/a" in Ha.
    destruct (Hl c r "/a" d_a Ha) as (d_root & Hroot & Hin_root); [done |].
    change (filepath.Dir "/a") with "/" in Hroot.
    exists d_root, d_a, d_ab. by rewrite !Dir_dir_at.
Qed.

(** C3: inserting a file a second time changes nothing, so the files
    set of its directory is the one a single insertion leaves; and
    [addToSet] adds no duplicate: it keeps a duplicate-free list
    duplicate-free, and adding a string a second time returns the list
    unchanged. *)
Theorem AddFile_idempotent (m : Map) (file : spb.VName) :
  AddFile (AddFile m file) file = AddFile m file
  ∧ files_at (AddFile (AddFile m file) file)
      (spb.Corpus file) (spb.Root file) (containing_dir file)
    = files_at (AddFile m file)
        (spb.Corpus file) (spb.Root file) (containing_dir file)
  ∧ (∀ strs str, NoDup strs → NoDup (addToSet strs str))
  ∧ (∀ strs str, addToSet (addToSet strs str) str = addToSet strs str).
Proof.
  assert (AddFile (AddFile m file) file = AddFile m file) as Hidem.
  { destruct (AddFile_containing_dir ToString URI_String m file)
      as (d & Hd & HF).
    rewrite (AddFile_unfold _ _ (AddFile m file)).
    rewrite ensureDir_present by (by rewrite Hd).
    apply update_dir_id. intros d' Hd'.
    rewrite Hd in Hd'. injection Hd' as <-.
    destruct d as [subs files]. simpl in *. f_equal.
    apply addToSet_present. rewrite HF. apply elem_of_addToSet. by right. }
  split_and!; [done | by rewrite Hidem | apply addToSet_NoDup | apply addToSet_idem].
Qed.

(** C4: [Dir] never returns an error, and on a corpus and root the index
    does not know, or on a directory that was never created, it returns
    the nil record with the nil error; so does
    [Dir("unknown-corpus", "", "/")] on every index without that corpus. *)
Theorem Dir_not_found (m : Map) (corpus root path : string) :
  snd (Dir m corpus root path) = None
  ∧ (M m !! corpus = None → Dir m corpus root path = (None, None))
  ∧ (dirs_at m corpus root = None → Dir m corpus root path = (None, None))
  ∧ (dir_at m corpus root path = None → Dir m corpus root path = (None, None))
  ∧ (∀ fs,
       (¬ ∃ f, f ∈ fs ∧ spb.Corpus f = corpus ∧ spb.Root f = root
               ∧ at_or_above path (containing_dir f)) →
       Dir (AddFiles NewMap fs) corpus root path = (None, None))
  ∧ (M m !! "unknown-corpus" = None →
     Dir m "unknown-corpus" "" "/" = (None, None)).
Proof.
  split_and!.
  - by rewrite Dir_dir_at.
  - intros H. unfold Dir. by rewrite H.
  - intros H. rewrite Dir_dir_at. unfold dir_at. by rewrite H.
  - intros H. by rewrite Dir_dir_at, H.
  - intros fs H. rewrite Dir_dir_at.
    destruct (dir_at (AddFiles NewMap fs) corpus root path) as [d|] eqn:E; [|done].
    destruct H. apply (rec_dir _ _ _ (recorded_from_empty fs)). by rewrite E.
  - intros H. unfold Dir. by rewrite H.
Qed.

(** C5: insertion roots every path at ["/"]. The bare path ["a/b.go"]
    is taken as ["/a/b.go"] and the file is recorded under ["/a"]; the
    containing directory of ["/a"] is ["/"] and that of ["/"] is ["/"]
    itself, where [ensureDir] makes no further call. For every file the
    directory passed to [ensureDir] begins with ["/"] and leads up to
    ["/"], and every directory an index built by insertions records
    begins with ["/"]. *)
Theorem AddFile_roots_paths (m : Map) (corpus root : string) :
  filepath.Join ["/"; "a/b.go"] = "/a/b.go"
  ∧ containing_dir (spb.mkVName corpus root "a/b.go") = "/a"
  ∧ filepath.Dir "/a" = "/"
  ∧ filepath.Dir "/" = "/"
  ∧ (∃ d, dir_at (AddFile m (spb.mkVName corpus root "a/b.go")) corpus root "/a"
          = Some d
          ∧ ToString (spb.mkVName corpus root "a/b.go") ∈ srvpb.FileTicket d)
  ∧ is_Some (ensureDir_fuel 1 m corpus root "/")
  ∧ (∀ file,
       filepath.rooted (filepath.Join ["/"; spb.Path file]) = true
       ∧ filepath.rooted (containing_dir file) = true
       ∧ at_or_above "/" (containing_dir file))
  ∧ (∀ fs c r p,
       is_Some (dir_at (AddFiles NewMap fs) c r p) →
       filepath.rooted p = true ∧ at_or_above "/" p).
Proof.
  split_and!; [done | done | done | done | | | |].
  - destruct (AddFile_containing_dir ToString URI_String m
                (spb.mkVName corpus root "a/b.go")) as (d & Hd & HF).
    exists d. split; [exact Hd |].
    rewrite HF. apply elem_of_addToSet. by right.
  - apply ensureDir_fuel_rooted; [done | simpl; lia].
  - intros file. split_and!.
    + apply filepath_facts.Join_rooted.
    + apply filepath_facts.containing_dir_rooted.
    + destruct (filepath_facts.Dir_reaches_root (containing_dir file)
                  (filepath_facts.containing_dir_rooted file)) as (n & _ & Hn).
      by exists n.
  - intros fs c r p Hp.
    destruct (proj1 (rec_dir _ _ _ (recorded_from_empty fs) c r p) Hp)
      as (f & _ & _ & _ & Habove).
    pose proof (filepath_facts.rooted_at_or_above _ _
                  (filepath_facts.containing_dir_rooted f) Habove) as Hr.
    split; [done |].
    destruct (filepath_facts.Dir_reaches_root p Hr) as (n & _ & Hn).
    by exists n.
Qed.

(** C6: [CorporaRoots] never returns an error; on the empty index it
    returns nothing; after any insertions it lists each corpus some
    inserted file has, once, and with it exactly the roots of the inserted
    files of that corpus, each once. After files of corpus ["c1"] with
    root [""] and of corpus ["c2"] with root ["r1"] the result is, in some
    order, ["c1"] with [""] and ["c2"] with ["r1"]. *)
Theorem CorporaRoots_lists_known_roots (fs : list spb.VName) :
  (∀ m, snd (CorporaRoots m) = None)
  ∧ CorporaRoots NewMap = ([], None)
  ∧ (∀ c, (∃ roots, srvpb.mkCorpus c roots
                    ∈ fst (CorporaRoots (AddFiles NewMap fs)))
          ↔ ∃ f, f ∈ fs ∧ spb.Corpus f = c)
  ∧ (∀ c roots,
       srvpb.mkCorpus c roots ∈ fst (CorporaRoots (AddFiles NewMap fs)) →
       NoDup roots
       ∧ ∀ r, r ∈ roots ↔ ∃ f, f ∈ fs ∧ spb.Corpus f = c ∧ spb.Root f = r)
  ∧ NoDup (srvpb.Corpus <$> fst (CorporaRoots (AddFiles NewMap fs)))
  ∧ ((∀ f, f ∈ fs → (spb.Corpus f = "c1" ∧ spb.Root f = "")
                    ∨ (spb.Corpus f = "c2" ∧ spb.Root f = "r1")) →
     (∃ f, f ∈ fs ∧ spb.Corpus f = "c1") →
     (∃ f, f ∈ fs ∧ spb.Corpus f = "c2") →
     fst (CorporaRoots (AddFiles NewMap fs))
     ≡ₚ [srvpb.mkCorpus "c1" [""]; srvpb.mkCorpus "c2" ["r1"]]).
Proof.
  pose proof (recorded_from_empty fs) as [Hc Hp _ _].
  set (m := AddFiles NewMap fs) in *.
  assert (∀ c, (∃ roots, srvpb.mkCorpus c roots ∈ fst (CorporaRoots m))
               ↔ ∃ f, f ∈ fs ∧ spb.Corpus f = c) as Hcorpora.
  { intros c. rewrite <- Hc. split.
    - intros (roots & (rootDirs & -> & _)%elem_of_CorporaRoots). done.
    - intros [rootDirs H]. eexists. apply elem_of_CorporaRoots. eauto. }
  assert (∀ c roots, srvpb.mkCorpus c roots ∈ fst (CorporaRoots m) →
            NoDup roots
            ∧ ∀ r, r ∈ roots
                   ↔ ∃ f, f ∈ fs ∧ spb.Corpus f = c ∧ spb.Root f = r) as Hroots.
  { intros c roots (rootDirs & Hm & ->)%elem_of_CorporaRoots.
    split; [apply NoDup_fst_map_to_list |].
    intros r. rewrite elem_of_keys, <- Hp. unfold dirs_at. by rewrite Hm. }
  assert (NoDup (srvpb.Corpus <$> fst (CorporaRoots m))) as Hnd.
  { rewrite CorporaRoots_corpora. apply NoDup_fst_map_to_list. }
  split_and!; [done | done | done | done | done |].
  intros Hall [f1 [Hf1 Hc1]] [f2 [Hf2 Hc2]].
  assert (∀ roots, srvpb.mkCorpus "c1" roots ∈ fst (CorporaRoots m) →
            roots = [""]) as H1.
  { intros roots [Hnd1 Hr]%Hroots. apply NoDup_only; [done |].
    intros r. rewrite Hr. split.
    - intros (f & Hf & E1 & E2). destruct (Hall f Hf) as [[_ ?]|[? _]]; congruence.
    - intros ->. exists f1. destruct (Hall f1 Hf1) as [[_ ?]|[? _]]; [done | congruence]. }
  assert (∀ roots, srvpb.mkCorpus "c2" roots ∈ fst (CorporaRoots m) →
            roots = ["r1"]) as H2.
  { intros roots [Hnd2 Hr]%Hroots. apply NoDup_only; [done |].
    intros r. rewrite Hr. split.
    - intros (f & Hf & E1 & E2). destruct (Hall f Hf) as [[? _]|[_ ?]]; congruence.
    - intros ->. exists f2. destruct (Hall f2 Hf2) as [[? _]|[_ ?]]; [congruence | done]. }
  apply NoDup_Permutation.
  - by eapply NoDup_fmap_1.
  - apply NoDup_cons. split; [|apply NoDup_singleton].
    by intros [=]%list_elem_of_singleton.
  - intros [c roots]. rewrite elem_of_cons, list_elem_of_singleton. split.
    + intros Hin.
      destruct (proj1 (Hcorpora c)) as (f & Hf & <-); [by exists roots |].
      destruct (Hall f Hf) as [[E _]|[E _]]; rewrite E in *.
      * left. by rewrite (H1 roots Hin).
      * right. by rewrite (H2 roots Hin).
    + intros [[= -> ->]|[= -> ->]].
      * destruct (proj2 (Hcorpora "c1")) as [roots Hin]; [by exists f1 |].
        by rewrite <- (H1 roots Hin).
      * destruct (proj2 (Hcorpora "c2")) as [roots Hin]; [by exists f2 |].
        by rewrite <- (H2 roots Hin).
Qed.

(** C7: [Populate] returns an error exactly when the scan of the fact
    source fails, and then the scan's error under the prefix
    ["failed to Scan GraphStore for directory structure: "]. It calls
    [AddFile] on the source of each fact the scan delivered whose name is
    the node-kind fact and whose value is the file kind, in order, and on
    nothing else; when the scan succeeds these are all such facts of the
    store. [AddFile] has no failure: the recursion of [ensureDir] always
    ends within its bound. *)
Theorem Populate_fails_iff_scan_fails (m : Map) (gs : graphstore.Service) :
  (snd (Populate m gs) = None ↔ graphstore.Failure gs = None)
  ∧ (∀ n err, graphstore.Failure gs = Some (n, err) →
       snd (Populate m gs)
       = Some ("failed to Scan GraphStore for directory structure: " +:+ err))
  ∧ fst (Populate m gs)
    = AddFiles m
        (spb.Source <$> filter (is_file NodeKindFact FileKind)
           (graphstore.delivered gs (spb.mkScanRequest NodeKindFact)))
  ∧ (graphstore.Failure gs = None →
     Populate m gs
     = (AddFiles m (spb.Source <$> filter (is_file NodeKindFact FileKind)
                      (graphstore.Facts gs)),
        None))
  ∧ (∀ m' file,
       ensureDir_fuel (depth_bound (containing_dir file)) m'
         (spb.Corpus file) (spb.Root file) (containing_dir file)
       = Some (ensureDir m' (spb.Corpus file) (spb.Root file)
                 (containing_dir file))).
Proof.
  rewrite Populate_eq. cbn [fst snd]. split_and!.
  - destruct (graphstore.Failure gs) as [[n err]|]; cbn [fmap option_fmap option_map];
      split; done.
  - by intros n err ->.
  - done.
  - intros H. unfold graphstore.delivered. rewrite H.
    by rewrite filter_is_file_matching.
  - intros m' file. apply ensureDir_eq.
Qed.

(** C8: [ensureDir] terminates on every path: its recursion ends within
    [depth_bound], and more fuel gives the same result. On a path that
    begins with ["/"], as every path [AddFile] passes does, each
    recursive call is on a strictly shorter path that again begins with
    ["/"], and ["/"] is reached in fewer steps than the path has bytes, so
    the recursion is at most as deep as the path is long. *)
Theorem ensureDir_terminates (m : Map) (corpus root path : string) :
  is_Some (ensureDir_fuel (depth_bound path) m corpus root path)
  ∧ (∀ fuel, depth_bound path ≤ fuel →
       ensureDir_fuel fuel m corpus root path
       = Some (ensureDir m corpus root path))
  ∧ (filepath.rooted path = true →
       (path ≠ "/" →
        filepath.rooted (filepath.Dir path) = true
        ∧ String.length (filepath.Dir path) < String.length path)
       ∧ (∃ n, n < String.length path ∧ Nat.iter n filepath.Dir path = "/")
       ∧ ensureDir_fuel (String.length path) m corpus root path
         = Some (ensureDir m corpus root path))
  ∧ (∀ file, filepath.rooted (containing_dir file) = true).
Proof.
  split_and!.
  - by rewrite ensureDir_eq.
  - intros fuel Hle. eapply ensureDir_fuel_more; [apply ensureDir_eq | done].
  - intros Hr. split_and!.
    + intros Hne. split; [by apply filepath_facts.Dir_rooted |].
      apply filepath_facts.Dir_shorter; [|done].
      by apply filepath_facts.rooted_has_slash.
    + by apply filepath_facts.Dir_reaches_root.
    + destruct (ensureDir_fuel_rooted URI_String (String.length path) m corpus
                  root path Hr (Nat.le_refl _)) as [m' Hm'].
      rewrite Hm'. f_equal.
      pose proof (ensureDir_fuel_more URI_String _ (depth_bound path) _ _ _ _ _ Hm') as H.
      rewrite ensureDir_eq in H. unfold depth_bound in H.
      specialize (H ltac:(lia)). congruence.
  - apply filepath_facts.containing_dir_rooted.
Qed.

(** C10: [AddFile] writes under the corpus and root of the file only.
    The records of every other corpus, and of every other root of its
    corpus, are as before; and under its corpus and root every directory
    other than the file's own keeps its files: a record that was there
    has the same files, and a record that is new has none. *)
Theorem AddFile_frame (m : Map) (file : spb.VName) :
  (∀ c', c' ≠ spb.Corpus file → M (AddFile m file) !! c' = M m !! c')
  ∧ (∀ c' r', (c' ≠ spb.Corpus file ∨ r' ≠ spb.Root file) →
       dirs_at (AddFile m file) c' r' = dirs_at m c' r')
  ∧ (∀ p, p ≠ containing_dir file →
       files_at (AddFile m file) (spb.Corpus file) (spb.Root file) p
       = files_at m (spb.Corpus file) (spb.Root file) p)
  ∧ (∀ p d, p ≠ containing_dir file →
       dir_at m (spb.Corpus file) (spb.Root file) p = Some d →
       ∃ d', dir_at (AddFile m file) (spb.Corpus file) (spb.Root file) p
             = Some d'
             ∧ srvpb.FileTicket d' = srvpb.FileTicket d).
Proof.
  split_and!.
  - intros c'. apply AddFile_other_corpus.
  - intros c' r'. apply AddFile_other_pair.
  - intros p Hne. unfold files_at.
    destruct (dir_at m (spb.Corpus file) (spb.Root file) p) as [d|] eqn:E.
    + destruct (AddFile_old_dir ToString URI_String m file p d E)
        as (d' & -> & _ & _ & HF). simpl. by apply HF.
    + destruct (dir_at (AddFile m file) _ _ p) as [d'|] eqn:E'; [|done].
      simpl. by destruct (AddFile_new_dir ToString URI_String m file p d' E' E)
        as (-> & _).
  - intros p d Hne E.
    destruct (AddFile_old_dir ToString URI_String m file p d E)
      as (d' & Hd' & _ & _ & HF).
    exists d'. split; [done | by apply HF].
Qed.


End filetree_properties.

(** ** Concrete runs *)

(** C1, the claim as stated fails: after [AddFile] of the bare path
    ["a/b.go"], [Dir] with ["a"] finds nothing while [Dir] with ["/a"]
    returns the record of the directory. *)
Lemma Dir_bare_path_not_found :
  Dir index_ab "c" "" "a" = (None, None)
  ∧ Dir index_ab "c" "" "/a"
    = (Some (srvpb.mkFileDirectory [] ["kythe://c?path=a/b.go?root="]), None)
  ∧ fst (Dir index_ab "c" "" "a") ≠ fst (Dir index_ab "c" "" "/a").
Proof. split_and!; [by vm_compute | by vm_compute | by vm_compute]. Qed.

(** The scenario of two files under ["/docs"]: the directory lists the
    file and the subdirectory, the subdirectory lists its file. *)
Example docs_scenario :
  let m := AddFiles demo_ToString demo_URI NewMap
             [spb.mkVName "k" "" "/docs/readme.md";
              spb.mkVName "k" "" "/docs/api/index.md"] in
  Dir m "k" "" "/docs"
  = (Some (srvpb.mkFileDirectory
             ["kythe://k?path=/docs/api?root="]
             ["kythe://k?path=/docs/readme.md?root="]), None)
  ∧ Dir m "k" "" "/docs/api"
    = (Some (srvpb.mkFileDirectory
               [] ["kythe://k?path=/docs/api/index.md?root="]), None)
  ∧ Dir m "k" "" "/"
    = (Some (srvpb.mkFileDirectory ["kythe://k?path=/docs?root="] []), None).
Proof. by vm_compute. Qed.

Lemma Dir_looks_up_verbatim_witness :
  Dir (AddFiles demo_ToString demo_URI NewMap [file_ab]) "c" "" "a"
  = (None, None).
Proof.
  apply (Dir_looks_up_verbatim demo_ToString demo_URI NewMap "c" "").
  reflexivity.
Defined.

Lemma ancestors_recorded_and_linked_witness :
  ∃ d_root d_a d_ab,
    fst (Dir (AddFiles demo_ToString demo_URI NewMap [file_abc]) "k" "" "/")
    = Some d_root
    ∧ fst (Dir (AddFiles demo_ToString demo_URI NewMap [file_abc]) "k" "" "/a")
      = Some d_a
    ∧ fst (Dir (AddFiles demo_ToString demo_URI NewMap [file_abc]) "k" "" "/a/b")
      = Some d_ab
    ∧ demo_URI (kytheuri.mkURI "k" "" "/a/b") ∈ srvpb.Subdirectory d_a
    ∧ demo_URI (kytheuri.mkURI "k" "" "/a") ∈ srvpb.Subdirectory d_root.
Proof.
  apply (ancestors_recorded_and_linked demo_ToString demo_URI [file_abc]).
  apply list_elem_of_here.
Defined.

Lemma AddFile_idempotent_witness : NoDup (addToSet ["a"; "b"] "a").
Proof.
  apply (AddFile_idempotent demo_ToString demo_URI NewMap file_ab).
  apply (bool_decide_unpack _). vm_compute. exact I.
Defined.

Lemma Dir_not_found_witness :
  Dir index_ab "unknown-corpus" "" "/" = (None, None).
Proof.
  apply (Dir_not_found demo_ToString demo_URI index_ab "c" "" "/a").
  reflexivity.
Defined.

Lemma AddFile_roots_paths_witness :
  filepath.rooted "/a" = true ∧ at_or_above "/" "/a".
Proof.
  apply (AddFile_roots_paths demo_ToString demo_URI NewMap "c" ""
         : _ ∧ _ ∧ _ ∧ _ ∧ _ ∧ _ ∧ _ ∧ _) with (fs := [file_ab]) (c := "c") (r := "").
  eexists. vm_compute. reflexivity.
Defined.

Lemma CorporaRoots_lists_known_roots_witness :
  fst (CorporaRoots (AddFiles demo_ToString demo_URI NewMap files_c1_c2))
  ≡ₚ [srvpb.mkCorpus "c1" [""]; srvpb.mkCorpus "c2" ["r1"]].
Proof.
  apply (CorporaRoots_lists_known_roots demo_ToString demo_URI files_c1_c2).
  - intros f [->|[->|[]%elem_of_nil]%elem_of_cons]%elem_of_cons.
    + left. split; reflexivity.
    + right. split; reflexivity.
  - eexists. split; [apply list_elem_of_here | reflexivity].
  - eexists. split; [apply list_elem_of_further, list_elem_of_here | reflexivity].
Defined.

Lemma Populate_fails_iff_scan_fails_witness :
  snd (Populate demo_ToString demo_URI "/kythe/node/kind" "file" NewMap
         failing_store)
  = Some ("failed to Scan GraphStore for directory structure: "
          +:+ "connection reset").
Proof.
  apply (Populate_fails_iff_scan_fails demo_ToString demo_URI
           "/kythe/node/kind" "file" NewMap failing_store) with (n := 1).
  reflexivity.
Defined.

Lemma ensureDir_terminates_witness :
  (("/a/b" : string) ≠ "/" →
   filepath.rooted (filepath.Dir "/a/b") = true
   ∧ String.length (filepath.Dir "/a/b") < String.length "/a/b")
  ∧ (∃ n, n < String.length "/a/b" ∧ Nat.iter n filepath.Dir "/a/b" = "/")
  ∧ ensureDir_fuel demo_URI (String.length "/a/b") NewMap "c" "" "/a/b"
    = Some (ensureDir demo_URI NewMap "c" "" "/a/b").
Proof.
  apply (ensureDir_terminates demo_URI NewMap "c" "" "/a/b").
  reflexivity.
Defined.


Lemma AddFile_frame_witness :
  dirs_at (AddFile demo_ToString demo_URI index_ab file_abc) "c" ""
  = dirs_at index_ab "c" "".
Proof.
  apply (AddFile_frame demo_ToString demo_URI index_ab file_abc).
  left. vm_compute. discriminate.
Defined.

(** ** More on the index: what insertions keep and what the sets hold *)

(** [file] is recorded in the directory [path] of [corpus] and [root]. *)
Definition in_dir (corpus root path : string) (file : spb.VName) : Prop :=
  spb.Corpus file = corpus ∧ spb.Root file = root ∧ containing_dir file = path.

#[global] Instance in_dir_dec corpus root path file :
  Decision (in_dir corpus root path file).
Proof. unfold in_dir. apply _. Defined.

(** Every record of [m'] that [m] has is there in [m'], with at least
    the files and subdirectories it has in [m]. *)
Definition extends (m m' : Map) : Prop :=
  ∀ c r p d, dir_at m c r p = Some d →
    ∃ d', dir_at m' c r p = Some d'
          ∧ srvpb.FileTicket d ⊆ srvpb.FileTicket d'
          ∧ srvpb.Subdirectory d ⊆ srvpb.Subdirectory d'.

(** Every record of the index satisfies [P]. *)
Definition all_dirs (P : srvpb.FileDirectory → Prop) (m : Map) : Prop :=
  ∀ c r p d, dir_at m c r p = Some d → P d.

Definition duplicate_free (d : srvpb.FileDirectory) : Prop :=
  NoDup (srvpb.FileTicket d) ∧ NoDup (srvpb.Subdirectory d).

Section growth_facts.

Variable ToString : spb.VName → string.
Variable URI_String : kytheuri.URI → string.

Implicit Types (m : Map) (corpus root path : string).

Local Abbreviation ensureDir_fuel := (ensureDir_fuel URI_String).
Local Abbreviation ensureDir := (ensureDir URI_String).
Local Abbreviation AddFile := (AddFile ToString URI_String).
Local Abbreviation AddFiles := (AddFiles ToString URI_String).

Lemma pair_cases (c r c0 r0 : string) :
  (c = c0 ∧ r = r0) ∨ (c ≠ c0 ∨ r ≠ r0).
Proof.
  destruct (decide (c = c0)) as [->|]; [|by right; left].
  destruct (decide (r = r0)) as [->|]; [by left | by right; right].
Qed.

Lemma extends_refl m : extends m m.
Proof. intros c r p d H. by exists d. Qed.

Lemma extends_trans m1 m2 m3 : extends m1 m2 → extends m2 m3 → extends m1 m3.
Proof.
  intros H12 H23 c r p d H.
  destruct (H12 _ _ _ _ H) as (d2 & H2 & F2 & S2).
  destruct (H23 _ _ _ _ H2) as (d3 & H3 & F3 & S3).
  exists d3. split_and!; [done | set_solver | set_solver].
Qed.

Lemma extends_AddFile m file : extends m (AddFile m file).
Proof.
  intros c r p d H.
  destruct (pair_cases c r (spb.Corpus file) (spb.Root file)) as [[-> ->]|Hne].
  - destruct (AddFile_old_dir ToString URI_String m file p d H)
      as (d' & Hd' & HS & HF & _).
    by exists d'.
  - exists d. by rewrite AddFile_other_pair_dir.
Qed.

Lemma extends_AddFiles m fs : extends m (AddFiles m fs).
Proof.
  revert m. induction fs as [|f fs IH]; intros m; [apply extends_refl |].
  simpl. eapply extends_trans; [apply extends_AddFile | apply IH].
Qed.

(** The files of every directory after one insertion. *)
Lemma files_at_AddFile m file c r p :
  files_at (AddFile m file) c r p
  = if decide (in_dir c r p file)
    then addToSet (files_at m c r p) (ToString file)
    else files_at m c r p.
Proof.
  case_decide as Hin.
  - destruct Hin as (<- & <- & <-).
    destruct (AddFile_containing_dir ToString URI_String m file)
      as (d' & Hd' & HF).
    unfold files_at at 1. by rewrite Hd'.
  - destruct (pair_cases c r (spb.Corpus file) (spb.Root file)) as [[-> ->]|Hne].
    + assert (p ≠ containing_dir file) as Hp.
      { intros ->. by apply Hin. }
      unfold files_at.
      destruct (dir_at m (spb.Corpus file) (spb.Root file) p) as [d|] eqn:E.
      * destruct (AddFile_old_dir ToString URI_String m file p d E)
          as (d' & -> & _ & _ & HF). simpl. by apply HF.
      * destruct (dir_at (AddFile m file) _ _ p) as [d'|] eqn:E'; [|done].
        simpl. by destruct (AddFile_new_dir ToString URI_String m file p d' E' E)
          as (-> & _).
    + unfold files_at. by rewrite AddFile_other_pair_dir.
Qed.

Lemma files_at_AddFiles m fs c r p :
  files_at (AddFiles m fs) c r p
  = fold_left addToSet (ToString <$> filter (in_dir c r p) fs)
      (files_at m c r p).
Proof.
  revert m. induction fs as [|f fs IH]; intros m; [done |].
  simpl. rewrite IH, files_at_AddFile, filter_cons.
  by case_decide.
Qed.

Lemma elem_of_fold_addToSet (strs init : list string) x :
  x ∈ fold_left addToSet strs init ↔ x ∈ init ∨ x ∈ strs.
Proof.
  revert init. induction strs as [|s strs IH]; intros init; simpl.
  - rewrite elem_of_nil. naive_solver.
  - rewrite IH, elem_of_addToSet, elem_of_cons. naive_solver.
Qed.

Lemma NoDup_fold_addToSet (strs init : list string) :
  NoDup init → NoDup (fold_left addToSet strs init).
Proof.
  revert init. induction strs as [|s strs IH]; intros init H; simpl; [done |].
  by apply IH, addToSet_NoDup.
Qed.

End growth_facts.

(** Every subdirectory ticket a record at [p] lists is the ticket of a
    recorded directory other than ["/"] whose containing directory is
    [p]. *)
Definition subdirs_recorded (URI_String : kytheuri.URI → string) (m : Map)
  : Prop :=
  ∀ c r p d t, dir_at m c r p = Some d → t ∈ srvpb.Subdirectory d →
    ∃ q, q ≠ "/" ∧ filepath.Dir q = p
         ∧ t = URI_String (kytheuri.mkURI c r q)
         ∧ is_Some (dir_at m c r q).

Section record_facts.

Variable ToString : spb.VName → string.
Variable URI_String : kytheuri.URI → string.

Implicit Types (m : Map) (corpus root path : string).

Local Abbreviation ensureDir_fuel := (ensureDir_fuel URI_String).
Local Abbreviation ensureDir := (ensureDir URI_String).
Local Abbreviation AddFile := (AddFile ToString URI_String).
Local Abbreviation AddFiles := (AddFiles ToString URI_String).
Local Abbreviation subdirs_recorded := (subdirs_recorded URI_String).

Lemma dir_at_set_dir_any m corpus root path dir c' r' p' :
  is_Some (dirs_at m corpus root) →
  dir_at (set_dir m corpus root path dir) c' r' p'
  = if decide (c' = corpus ∧ r' = root ∧ p' = path) then Some dir
    else dir_at m c' r' p'.
Proof.
  intros Hd.
  destruct (pair_cases c' r' corpus root) as [[-> ->]|Hne].
  - rewrite dir_at_set_dir by done.
    destruct (decide (p' = path)) as [->|Hp].
    + by rewrite decide_True.
    + rewrite decide_False; [done | by intros (_ & _ & ?)].
  - unfold dir_at. rewrite dirs_at_set_dir_ne by done.
    rewrite decide_False; [done |]. intros (-> & -> & _). by destruct Hne.
Qed.

Lemma dir_at_update_dir_any m corpus root path f c' r' p' :
  dir_at (update_dir m corpus root path f) c' r' p'
  = if decide (c' = corpus ∧ r' = root ∧ p' = path)
    then f <$> dir_at m corpus root path
    else dir_at m c' r' p'.
Proof.
  destruct (pair_cases c' r' corpus root) as [[-> ->]|Hne].
  - rewrite dir_at_update_dir.
    destruct (decide (p' = path)) as [->|Hp].
    + by rewrite decide_True.
    + rewrite decide_False; [done | by intros (_ & _ & ?)].
  - unfold dir_at at 1. rewrite dirs_at_update_dir_ne by done.
    rewrite decide_False; [done |]. intros (-> & -> & _). by destruct Hne.
Qed.

Lemma is_Some_update_dir m corpus root path f c' r' p' :
  is_Some (dir_at (update_dir m corpus root path f) c' r' p')
  ↔ is_Some (dir_at m c' r' p').
Proof.
  rewrite dir_at_update_dir_any. case_decide as E; [|done].
  destruct E as (-> & -> & ->). apply fmap_is_Some.
Qed.

Lemma is_Some_set_dir m corpus root path dir c' r' p' :
  is_Some (dirs_at m corpus root) → is_Some (dir_at m c' r' p') →
  is_Some (dir_at (set_dir m corpus root path dir) c' r' p').
Proof.
  intros Hd H. rewrite dir_at_set_dir_any by done. by case_decide.
Qed.

(** *** A property of all records, kept by the stores *)
Section all_dirs.

Variable P : srvpb.FileDirectory → Prop.
Hypothesis P_empty : P (srvpb.mkFileDirectory [] []).
Hypothesis P_subdir : ∀ d str,
  P d → P (srvpb.mkFileDirectory (addToSet (srvpb.Subdirectory d) str)
             (srvpb.FileTicket d)).
Hypothesis P_file : ∀ d str,
  P d → P (srvpb.mkFileDirectory (srvpb.Subdirectory d)
             (addToSet (srvpb.FileTicket d) str)).

Lemma all_dirs_ensureDir_fuel fuel m corpus root path m' :
  all_dirs P m → ensureDir_fuel fuel m corpus root path = Some m' →
  all_dirs P m'.
Proof.
  revert m path m'. induction fuel as [|fuel IH]; intros m path m' HP; [done |].
  rewrite ensureDir_fuel_S. cbv zeta.
  assert (all_dirs P (ensureCorpusRoot m corpus root)) as HP1.
  { intros c r p d. rewrite dir_at_ensureCorpusRoot. apply HP. }
  pose proof (dirs_at_ensureCorpusRoot_eq m corpus root) as Hdirs.
  set (m1 := ensureCorpusRoot m corpus root) in *.
  destruct (dir_at m1 corpus root path) eqn:Hp; [by intros [= <-] |].
  assert (is_Some (dirs_at m1 corpus root)) as Hsome by (by rewrite Hdirs).
  assert (all_dirs P (set_dir m1 corpus root path (srvpb.mkFileDirectory [] [])))
    as HP2.
  { intros c r p d. rewrite dir_at_set_dir_any by done.
    case_decide; [by intros [= <-] | apply HP1]. }
  destruct (String.eqb path "/"); [by intros [= <-] |].
  destruct (ensureDir_fuel fuel _ corpus root (filepath.Dir path))
    as [m3|] eqn:Hrec; [|done].
  intros [= <-]. pose proof (IH _ _ _ HP2 Hrec) as HP3.
  intros c r p d. rewrite dir_at_update_dir_any. case_decide; [|apply HP3].
  destruct (dir_at m3 corpus root (filepath.Dir path)) as [d3|] eqn:E3; [|done].
  intros [= <-]. apply P_subdir. by eapply HP3.
Qed.

Lemma all_dirs_AddFile m file : all_dirs P m → all_dirs P (AddFile m file).
Proof.
  intros HP.
  assert (all_dirs P (ensureDir m (spb.Corpus file) (spb.Root file)
                        (containing_dir file))) as HP1.
  { eapply all_dirs_ensureDir_fuel; [done | apply ensureDir_eq]. }
  intros c r p d. rewrite AddFile_unfold, dir_at_update_dir_any.
  case_decide; [|apply HP1].
  destruct (dir_at _ (spb.Corpus file) (spb.Root file) (containing_dir file))
    as [d1|] eqn:E1; [|done].
  intros [= <-]. apply P_file. by eapply HP1.
Qed.

Lemma all_dirs_AddFiles m fs : all_dirs P m → all_dirs P (AddFiles m fs).
Proof.
  revert m. induction fs as [|f fs IH]; intros m HP; [done |].
  simpl. by apply IH, all_dirs_AddFile.
Qed.

End all_dirs.

Lemma all_dirs_NewMap P : all_dirs P NewMap.
Proof.
  intros c r p d. unfold dir_at, dirs_at. simpl. by rewrite lookup_empty.
Qed.

(** *** Where the subdirectory tickets come from *)

Lemma subdirs_recorded_ensureDir_fuel fuel m corpus root path m' :
  subdirs_recorded m → ensureDir_fuel fuel m corpus root path = Some m' →
  subdirs_recorded m'.
Proof.
  revert m path m'. induction fuel as [|fuel IH]; intros m path m' HJ; [done |].
  rewrite ensureDir_fuel_S. cbv zeta.
  assert (subdirs_recorded (ensureCorpusRoot m corpus root)) as HJ1.
  { intros c r p d t. rewrite dir_at_ensureCorpusRoot. intros Hd Ht.
    destruct (HJ _ _ _ _ _ Hd Ht) as (q & ? & ? & ? & ?).
    exists q. by rewrite dir_at_ensureCorpusRoot. }
  pose proof (dirs_at_ensureCorpusRoot_eq m corpus root) as Hdirs.
  set (m1 := ensureCorpusRoot m corpus root) in *.
  destruct (dir_at m1 corpus root path) eqn:Hp; [by intros [= <-] |].
  assert (is_Some (dirs_at m1 corpus root)) as Hsome by (by rewrite Hdirs).
  set (m2 := set_dir m1 corpus root path (srvpb.mkFileDirectory [] [])).
  assert (subdirs_recorded m2) as HJ2.
  { intros c r p d t. unfold m2. rewrite dir_at_set_dir_any by done.
    case_decide.
    - intros [= <-]. by intros ?%elem_of_nil.
    - intros Hd Ht. destruct (HJ1 _ _ _ _ _ Hd Ht) as (q & ? & ? & ? & ?).
      exists q. split_and!; [done.. |]. by apply is_Some_set_dir. }
  assert (is_Some (dir_at m2 corpus root path)) as Hpath2.
  { unfold m2. rewrite dir_at_set_dir_any by done. by rewrite decide_True. }
  destruct (String.eqb_spec path "/") as [->|Hne]; [by intros [= <-] |].
  destruct (ensureDir_fuel fuel m2 corpus root (filepath.Dir path))
    as [m3|] eqn:Hrec; [|done].
  intros [= <-]. pose proof (IH _ _ _ HJ2 Hrec) as HJ3.
  destruct (ensureDir_fuel_spec URI_String _ _ _ _ _ _ Hrec) as (G & _ & _).
  intros c r p d t. rewrite dir_at_update_dir_any. case_decide as E.
  - destruct E as (-> & -> & ->).
    destruct (dir_at m3 corpus root (filepath.Dir path)) as [d3|] eqn:E3; [|done].
    intros [= <-]. simpl. intros [Ht| ->]%elem_of_addToSet.
    + destruct (HJ3 _ _ _ _ _ E3 Ht) as (q & ? & ? & ? & ?).
      exists q. split_and!; [done.. |]. by apply is_Some_update_dir.
    + exists path. split_and!; [done.. |]. apply is_Some_update_dir.
      destruct Hpath2 as [d2 Hd2].
      destruct (grows_dir _ _ _ _ G _ _ Hd2) as (d3' & -> & _). done.
  - intros Hd Ht. destruct (HJ3 _ _ _ _ _ Hd Ht) as (q & ? & ? & ? & ?).
    exists q. split_and!; [done.. |]. by apply is_Some_update_dir.
Qed.

Lemma subdirs_recorded_AddFile m file :
  subdirs_recorded m → subdirs_recorded (AddFile m file).
Proof.
  intros HJ.
  assert (subdirs_recorded (ensureDir m (spb.Corpus file) (spb.Root file)
                              (containing_dir file))) as HJ1.
  { eapply subdirs_recorded_ensureDir_fuel; [done | apply ensureDir_eq]. }
  intros c r p d t. rewrite AddFile_unfold, dir_at_update_dir_any.
  case_decide as E.
  - destruct E as (-> & -> & ->).
    destruct (dir_at _ (spb.Corpus file) (spb.Root file) (containing_dir file))
      as [d1|] eqn:E1; [|done].
    intros [= <-]. simpl. intros Ht.
    destruct (HJ1 _ _ _ _ _ E1 Ht) as (q & ? & ? & ? & ?).
    exists q. split_and!; [done.. |]. by apply is_Some_update_dir.
  - intros Hd Ht. destruct (HJ1 _ _ _ _ _ Hd Ht) as (q & ? & ? & ? & ?).
    exists q. split_and!; [done.. |]. by apply is_Some_update_dir.
Qed.

Lemma subdirs_recorded_AddFiles m fs :
  subdirs_recorded m → subdirs_recorded (AddFiles m fs).
Proof.
  revert m. induction fs as [|f fs IH]; intros m HJ; [done |].
  simpl. by apply IH, subdirs_recorded_AddFile.
Qed.

Lemma subdirs_recorded_NewMap : subdirs_recorded NewMap.
Proof.
  intros c r p d t. unfold dir_at, dirs_at. simpl. by rewrite lookup_empty.
Qed.

End record_facts.

Section listing_facts.

Variable ToString : spb.VName → string.
Variable URI_String : kytheuri.URI → string.

Implicit Types (m : Map) (corpus root path : string).

Local Abbreviation ensureDir := (ensureDir URI_String).
Local Abbreviation AddFile := (AddFile ToString URI_String).
Local Abbreviation AddFiles := (AddFiles ToString URI_String).

Lemma elem_of_files_at m corpus root path t :
  t ∈ files_at m corpus root path
  ↔ ∃ d, dir_at m corpus root path = Some d ∧ t ∈ srvpb.FileTicket d.
Proof.
  unfold files_at. destruct (dir_at m corpus root path) as [d|]; simpl.
  - split; [by exists d | by intros (? & [= <-] & ?)].
  - rewrite elem_of_nil. split; [done | by intros (? & ? & _)].
Qed.

(** The pairs [CorporaRoots] lists are those that have a map of
    directories. *)
Lemma listed_iff m corpus root :
  (∃ roots, srvpb.mkCorpus corpus roots ∈ fst (CorporaRoots m) ∧ root ∈ roots)
  ↔ is_Some (dirs_at m corpus root).
Proof.
  split.
  - intros (roots & (rootDirs & Hm & ->)%elem_of_CorporaRoots & Hin).
    apply elem_of_keys in Hin. unfold dirs_at. by rewrite Hm.
  - intros [dirs (rootDirs & Hm & Hr)%dirs_at_Some].
    eexists. split; [apply elem_of_CorporaRoots; eauto |].
    apply elem_of_keys. by rewrite Hr.
Qed.

Lemma files_at_ensureDir m corpus root path c r p :
  files_at (ensureDir m corpus root path) c r p = files_at m c r p.
Proof.
  destruct (ensureDir_spec URI_String m corpus root path) as (G & _ & C).
  unfold files_at.
  destruct (pair_cases c r corpus root) as [[-> ->]|Hne].
  - destruct (dir_at m corpus root p) as [d|] eqn:E.
    + destruct (grows_dir _ _ _ _ G _ _ E) as (d' & -> & HF & _). by simpl.
    + destruct (dir_at (ensureDir m corpus root path) corpus root p)
        as [d'|] eqn:E'; [|done].
      simpl. by destruct (C p d' E' E) as (-> & _).
  - unfold dir_at.
    destruct (decide (c = corpus)) as [->|Hc].
    + destruct Hne as [|Hr]; [done |]. by rewrite (grows_root _ _ _ _ G).
    + unfold dirs_at. by rewrite (grows_corpus _ _ _ _ G).
Qed.

(** A record of an index built by insertions lists a file or a
    subdirectory. *)
Lemma recorded_nonempty fs c r p d :
  dir_at (AddFiles NewMap fs) c r p = Some d →
  srvpb.FileTicket d ≠ [] ∨ srvpb.Subdirectory d ≠ [].
Proof.
  intros Hd.
  pose proof (recorded_from_empty ToString URI_String fs) as [_ _ Hrec Hl].
  destruct (proj1 (Hrec c r p)) as (f & Hf & <- & <- & [n Hn]);
    [by rewrite Hd |].
  revert p d Hd Hn. induction n as [|n IH]; intros p d Hd Hn.
  - left. simpl in Hn. subst p.
    assert (ToString f ∈ files_at (AddFiles NewMap fs) (spb.Corpus f)
                           (spb.Root f) (containing_dir f)) as Hin.
    { rewrite files_at_AddFiles. apply elem_of_fold_addToSet. right.
      apply list_elem_of_fmap_2, list_elem_of_filter. done. }
    apply elem_of_files_at in Hin as (d' & Hd' & Hin).
    rewrite Hd in Hd'. injection Hd' as <-. by destruct (srvpb.FileTicket d);
      [apply elem_of_nil in Hin |].
  - simpl in Hn. set (q := Nat.iter n filepath.Dir (containing_dir f)) in *.
    destruct (proj2 (Hrec (spb.Corpus f) (spb.Root f) q)) as [dq Hq].
    { exists f. split_and!; [done.. |]. by exists n. }
    destruct (decide (q = "/")) as [E|E].
    + rewrite E in Hn. change (filepath.Dir "/") with "/" in Hn. subst p.
      apply (IH "/" d Hd). by rewrite <- E.
    + right. destruct (Hl _ _ _ _ Hq E) as (parent & Hpar & Hin).
      rewrite Hn, Hd in Hpar. injection Hpar as <-.
      by destruct (srvpb.Subdirectory d); [apply elem_of_nil in Hin |].
Qed.

End listing_facts.

(** ** Further properties of the code *)
Section more_properties.

Variable ToString : spb.VName → string.
Variable URI_String : kytheuri.URI → string.
Variable NodeKindFact FileKind : string.

Implicit Types (m : Map) (corpus root path : string).

Local Abbreviation ensureDir := (ensureDir URI_String).
Local Abbreviation AddFile := (AddFile ToString URI_String).
Local Abbreviation AddFiles := (AddFiles ToString URI_String).
Local Abbreviation Populate := (Populate ToString URI_String NodeKindFact FileKind).

(** X1: [addToSet] returns the list with [str] appended when [str] is
    not in it and the list itself when it is; so the result holds the
    elements of the list and [str], the old ones first and in their
    order. *)
Theorem addToSet_appends_unless_present (strs : list string) (str : string) :
  (∀ x, x ∈ addToSet strs str ↔ x ∈ strs ∨ x = str)
  ∧ (str ∈ strs → addToSet strs str = strs)
  ∧ (str ∉ strs → addToSet strs str = (strs ++ [str])%list).
Proof.
  split_and!.
  - intros x. apply elem_of_addToSet.
  - apply addToSet_present.
  - intros H. unfold addToSet.
    destruct (contains strs str) eqn:E; [|done].
    by apply contains_elem_of in E.
Qed.

(** X2: after a sequence of insertions the files of a directory are its
    files before, followed by the tickets of the inserted files whose
    corpus, root and containing directory are its own, in the order of
    their first insertion and each once. From the empty index, a ticket
    is listed in a directory exactly when a file with that ticket was
    inserted there. *)
Theorem files_listed_in_insertion_order m (fs : list spb.VName) (c r p : string) :
  files_at (AddFiles m fs) c r p
  = fold_left addToSet (ToString <$> filter (in_dir c r p) fs)
      (files_at m c r p)
  ∧ (∀ t, (∃ d, fst (Dir (AddFiles NewMap fs) c r p) = Some d
                ∧ t ∈ srvpb.FileTicket d)
          ↔ ∃ f, f ∈ fs ∧ in_dir c r p f ∧ ToString f = t).
Proof.
  split; [apply files_at_AddFiles |].
  intros t.
  assert (t ∈ files_at (AddFiles NewMap fs) c r p
          ↔ ∃ f, f ∈ fs ∧ in_dir c r p f ∧ ToString f = t) as <-.
  { rewrite files_at_AddFiles, elem_of_fold_addToSet.
    change (files_at NewMap c r p) with (@nil string).
    rewrite elem_of_nil, list_elem_of_fmap. split.
    - intros [[]|(f & -> & [Hin Hf]%list_elem_of_filter)]. by exists f.
    - intros (f & Hf & Hin & <-). right. exists f.
      split; [done |]. by apply list_elem_of_filter. }
  rewrite elem_of_files_at. split.
  - intros (d & Hd & Ht). rewrite Dir_dir_at in Hd. by exists d.
  - intros (d & Hd & Ht). exists d. by rewrite Dir_dir_at.
Qed.

(** X3: a file that was inserted is found, whatever the index held
    before and whatever is inserted afterwards: [Dir] on its corpus, its
    root and its containing directory returns a record that lists its
    ticket. *)
Theorem inserted_file_stays_listed m (file : spb.VName) (fs : list spb.VName) :
  ∃ d, Dir (AddFiles (AddFile m file) fs) (spb.Corpus file) (spb.Root file)
         (containing_dir file) = (Some d, None)
       ∧ ToString file ∈ srvpb.FileTicket d.
Proof.
  destruct (AddFile_containing_dir ToString URI_String m file)
    as (d0 & Hd0 & HF).
  destruct (extends_AddFiles ToString URI_String (AddFile m file) fs _ _ _ _ Hd0)
    as (d & Hd & Hsub & _).
  exists d. rewrite Dir_dir_at, Hd. split; [done |].
  apply Hsub. rewrite HF. apply elem_of_addToSet. by right.
Qed.

(** X4: insertions remove nothing: a record [Dir] returns is still
    returned after any further insertions, with at least the files and the
    subdirectories it had. *)
Theorem AddFiles_keeps_records m (fs : list spb.VName) (c r p : string)
    (d : srvpb.FileDirectory) :
  Dir m c r p = (Some d, None) →
  ∃ d', Dir (AddFiles m fs) c r p = (Some d', None)
        ∧ srvpb.FileTicket d ⊆ srvpb.FileTicket d'
        ∧ srvpb.Subdirectory d ⊆ srvpb.Subdirectory d'.
Proof.
  rewrite !Dir_dir_at. intros [= Hd].
  destruct (extends_AddFiles ToString URI_String m fs _ _ _ _ Hd)
    as (d' & Hd' & HF & HS).
  exists d'. by rewrite Hd'.
Qed.

(** X5: insertions keep the sets duplicate-free: when no record of the
    index lists a file or a subdirectory twice, none does after any
    insertions; so none does in an index built from the empty one. *)
Theorem records_stay_duplicate_free m (fs : list spb.VName) :
  (all_dirs duplicate_free m → all_dirs duplicate_free (AddFiles m fs))
  ∧ all_dirs duplicate_free (AddFiles NewMap fs).
Proof.
  assert (∀ m, all_dirs duplicate_free m
               → all_dirs duplicate_free (AddFiles m fs)) as H.
  { intros m0. apply all_dirs_AddFiles.
    - split; apply NoDup_nil_2.
    - intros d str [HF HS]. split; [done | by apply addToSet_NoDup].
    - intros d str [HF HS]. split; [by apply addToSet_NoDup | done]. }
  split; [apply H | apply H, all_dirs_NewMap].
Qed.

(** X6: in an index built by insertions the subdirectories of a
    directory are exactly the tickets of the recorded directories, other
    than ["/"], whose containing directory it is. *)
Theorem subdirectories_are_recorded_children (fs : list spb.VName)
    (c r p : string) (d : srvpb.FileDirectory) (t : string) :
  fst (Dir (AddFiles NewMap fs) c r p) = Some d →
  (t ∈ srvpb.Subdirectory d
   ↔ ∃ q, q ≠ "/" ∧ filepath.Dir q = p
          ∧ is_Some (fst (Dir (AddFiles NewMap fs) c r q))
          ∧ t = URI_String (kytheuri.mkURI c r q)).
Proof.
  rewrite Dir_dir_at. simpl. intros Hd. split.
  - intros Ht.
    destruct (subdirs_recorded_AddFiles ToString URI_String NewMap fs
                (subdirs_recorded_NewMap URI_String) _ _ _ _ _ Hd Ht)
      as (q & ? & ? & ? & ?).
    exists q. by rewrite Dir_dir_at.
  - intros (q & Hq & <- & [dq Hdq] & ->). rewrite Dir_dir_at in Hdq. simpl in Hdq.
    destruct (rec_linked _ _ _ (recorded_from_empty ToString URI_String fs)
                _ _ _ _ Hdq Hq) as (parent & Hpar & Hin).
    rewrite Hd in Hpar. by injection Hpar as <-.
Qed.

(** X7: an index built by insertions has no empty record: every record
    [Dir] returns lists a file or a subdirectory. *)
Theorem no_empty_record (fs : list spb.VName) (c r p : string)
    (d : srvpb.FileDirectory) :
  fst (Dir (AddFiles NewMap fs) c r p) = Some d →
  srvpb.FileTicket d ≠ [] ∨ srvpb.Subdirectory d ≠ [].
Proof. rewrite Dir_dir_at. apply recorded_nonempty. Qed.

(** X8: [ensureCorpusRoot] makes the corpus and root known, so
    [CorporaRoots] lists them afterwards, and changes no answer of [Dir];
    no other corpus and root become known by it, and on a known pair it
    changes nothing. *)
Theorem ensureCorpusRoot_registers_pair m corpus root :
  (∃ roots, srvpb.mkCorpus corpus roots
            ∈ fst (CorporaRoots (ensureCorpusRoot m corpus root))
            ∧ root ∈ roots)
  ∧ (∀ c r p, Dir (ensureCorpusRoot m corpus root) c r p = Dir m c r p)
  ∧ (∀ c r, (c ≠ corpus ∨ r ≠ root) →
       dirs_at (ensureCorpusRoot m corpus root) c r = dirs_at m c r)
  ∧ (is_Some (dirs_at m corpus root) → ensureCorpusRoot m corpus root = m).
Proof.
  split_and!.
  - apply listed_iff. by rewrite dirs_at_ensureCorpusRoot_eq.
  - intros c r p. by rewrite !Dir_dir_at, dir_at_ensureCorpusRoot.
  - intros c r. apply dirs_at_ensureCorpusRoot_ne.
  - apply ensureCorpusRoot_id.
Qed.

(** X9: [ensureDir] records the directory it is called on and touches
    no files set of any directory; on a directory that is recorded it
    changes nothing, so a second call changes nothing. *)
Theorem ensureDir_records_without_files m corpus root path :
  is_Some (fst (Dir (ensureDir m corpus root path) corpus root path))
  ∧ (∀ c r p, files_at (ensureDir m corpus root path) c r p = files_at m c r p)
  ∧ (is_Some (fst (Dir m corpus root path)) → ensureDir m corpus root path = m)
  ∧ ensureDir (ensureDir m corpus root path) corpus root path
    = ensureDir m corpus root path.
Proof.
  destruct (ensureDir_spec URI_String m corpus root path) as (_ & Hp & _).
  split_and!.
  - by rewrite Dir_dir_at.
  - intros c r p. apply files_at_ensureDir.
  - rewrite Dir_dir_at. apply ensureDir_present.
  - by apply ensureDir_present.
Qed.

(** X10: whatever [Dir] finds is under a pair that [CorporaRoots]
    lists: when [Dir] returns a record for a corpus and root, the corpus
    is in the result of [CorporaRoots] with the root among its roots. *)
Theorem Dir_found_is_listed m corpus root path (d : srvpb.FileDirectory) :
  fst (Dir m corpus root path) = Some d →
  ∃ roots, srvpb.mkCorpus corpus roots ∈ fst (CorporaRoots m) ∧ root ∈ roots.
Proof.
  rewrite Dir_dir_at. simpl. intros Hd. apply listed_iff.
  eapply dir_at_dirs_at. by rewrite Hd.
Qed.

(** X11: after [AddFile] on any index [CorporaRoots] lists the file's
    corpus with the file's root; a pair of another corpus or root is
    listed after the insertion exactly when it was listed before. *)
Theorem AddFile_lists_its_pair m (file : spb.VName) :
  (∃ roots, srvpb.mkCorpus (spb.Corpus file) roots
            ∈ fst (CorporaRoots (AddFile m file))
            ∧ spb.Root file ∈ roots)
  ∧ (∀ c r, (c ≠ spb.Corpus file ∨ r ≠ spb.Root file) →
       (∃ roots, srvpb.mkCorpus c roots ∈ fst (CorporaRoots (AddFile m file))
                 ∧ r ∈ roots)
       ↔ (∃ roots, srvpb.mkCorpus c roots ∈ fst (CorporaRoots m) ∧ r ∈ roots)).
Proof.
  split.
  - apply listed_iff.
    destruct (AddFile_containing_dir ToString URI_String m file) as (d & Hd & _).
    eapply dir_at_dirs_at. by rewrite Hd.
  - intros c r Hne. rewrite !listed_iff.
    by rewrite (AddFile_other_pair ToString URI_String).
Qed.

(** X12: every file fact the scan delivers is indexed: after [Populate],
    with or without a failure of the scan, [Dir] on the corpus, root and
    containing directory of its source returns a record that lists its
    ticket. When the scan does not fail this holds for every file fact of
    the store. *)
Theorem Populate_indexes_delivered_files m (gs : graphstore.Service) :
  (∀ entry,
     entry ∈ graphstore.delivered gs (spb.mkScanRequest NodeKindFact) →
     is_file NodeKindFact FileKind entry →
     ∃ d, Dir (fst (Populate m gs)) (spb.Corpus (spb.Source entry))
            (spb.Root (spb.Source entry)) (containing_dir (spb.Source entry))
          = (Some d, None)
          ∧ ToString (spb.Source entry) ∈ srvpb.FileTicket d)
  ∧ (graphstore.Failure gs = None →
     ∀ entry, entry ∈ graphstore.Facts gs →
       is_file NodeKindFact FileKind entry →
       ∃ d, Dir (fst (Populate m gs)) (spb.Corpus (spb.Source entry))
              (spb.Root (spb.Source entry)) (containing_dir (spb.Source entry))
            = (Some d, None)
            ∧ ToString (spb.Source entry) ∈ srvpb.FileTicket d).
Proof.
  assert (∀ entry,
     entry ∈ graphstore.delivered gs (spb.mkScanRequest NodeKindFact) →
     is_file NodeKindFact FileKind entry →
     ∃ d, Dir (fst (Populate m gs)) (spb.Corpus (spb.Source entry))
            (spb.Root (spb.Source entry)) (containing_dir (spb.Source entry))
          = (Some d, None)
          ∧ ToString (spb.Source entry) ∈ srvpb.FileTicket d) as H.
  { intros entry Hin Hfile. rewrite Populate_eq. cbn [fst].
    set (fs := spb.Source <$> _).
    assert (ToString (spb.Source entry)
            ∈ files_at (AddFiles m fs) (spb.Corpus (spb.Source entry))
                (spb.Root (spb.Source entry))
                (containing_dir (spb.Source entry))) as Ht.
    { rewrite (files_at_AddFiles ToString URI_String).
      apply elem_of_fold_addToSet. right.
      apply list_elem_of_fmap_2, list_elem_of_filter. split; [done |].
      unfold fs. apply list_elem_of_fmap_2, list_elem_of_filter. done. }
    apply elem_of_files_at in Ht as (d & Hd & Ht).
    exists d. by rewrite Dir_dir_at, Hd. }
  split; [done |]. intros Hok entry Hin Hfile. apply H; [|done].
  unfold graphstore.delivered. rewrite Hok.
  apply list_elem_of_filter. split; [|done].
  unfold graphstore.matching. simpl. destruct Hfile as [-> _].
  apply prefix_refl.
Qed.

(** X13: [Populate] removes nothing, whether the scan fails or not: a
    record [Dir] returned before is returned after it with at least the
    same files and subdirectories. *)
Theorem Populate_keeps_records m (gs : graphstore.Service) (c r p : string)
    (d : srvpb.FileDirectory) :
  Dir m c r p = (Some d, None) →
  ∃ d', Dir (fst (Populate m gs)) c r p = (Some d', None)
        ∧ srvpb.FileTicket d ⊆ srvpb.FileTicket d'
        ∧ srvpb.Subdirectory d ⊆ srvpb.Subdirectory d'.
Proof.
  rewrite !Dir_dir_at. intros [= Hd]. rewrite Populate_eq. cbn [fst].
  set (fs := spb.Source <$> _).
  destruct (extends_AddFiles ToString URI_String m fs _ _ _ _ Hd)
    as (d' & Hd' & HF & HS).
  exists d'. by rewrite Hd'.
Qed.

End more_properties.

Section remote_properties.

Variable ToString : spb.VName → string.
Variable URI_String : kytheuri.URI → string.

Local Abbreviation AddFiles := (AddFiles ToString URI_String).

Lemma Call_registered_dir (ft : Service)
    (net : string → option (gmap string (web.Request → web.Response)))
    (addr : string) (mux : gmap string (web.Request → web.Response))
    (corpus root path : string) :
  net addr = Some (RegisterHTTPHandlers ft mux) →
  web.Call net addr "dir" (web.BCorpusPath (mkCorpusPath corpus root path))
  = match Service_Dir ft corpus root path with
    | (_, Some _) => inr "remote method call failed"
    | (dir, None) => inl (web.BDir dir)
    end.
Proof.
  intros Hnet. unfold web.Call. rewrite Hnet.
  unfold RegisterHTTPHandlers. rewrite lookup_insert_eq. cbn.
  by destruct (Service_Dir ft corpus root path) as [dir [err|]].
Qed.

Lemma Call_registered_corpusRoots (ft : Service)
    (net : string → option (gmap string (web.Request → web.Response)))
    (addr : string) (mux : gmap string (web.Request → web.Response)) :
  net addr = Some (RegisterHTTPHandlers ft mux) →
  web.Call net addr "corpusRoots" web.BEmpty
  = match Service_CorporaRoots ft with
    | (_, Some _) => inr "remote method call failed"
    | (cr, None) => inl (web.BCorpusRoots cr)
    end.
Proof.
  intros Hnet. unfold web.Call. rewrite Hnet.
  unfold RegisterHTTPHandlers.
  rewrite lookup_insert_ne by done. rewrite lookup_insert_eq. cbn.
  by destruct (Service_CorporaRoots ft) as [cr [err|]].
Qed.

(** X14: [webClient.Dir] never returns a nil record: it returns the
    address of its reply whatever the call does. When no server answers
    at the address, both methods of the client return an error, and [Dir]
    the empty record with it. *)
Theorem webClient_reply_never_nil
    (net : string → option (gmap string (web.Request → web.Response)))
    (addr corpus root path : string) :
  is_Some (fst (webClient_Dir net addr corpus root path))
  ∧ (net addr = None →
     fst (webClient_Dir net addr corpus root path)
     = Some (srvpb.mkFileDirectory [] [])
     ∧ is_Some (snd (webClient_Dir net addr corpus root path))
     ∧ is_Some (snd (webClient_CorporaRoots net addr))).
Proof.
  split.
  - unfold webClient_Dir.
    destruct (web.Call net addr "dir" _) as [[| | [dir|] | |]|err]; done.
  - intros Hnet. unfold webClient_Dir, webClient_CorporaRoots, web.Call.
    rewrite Hnet. done.
Qed.

(** X15: the client forwards to whatever service the server registered,
    not only to a [Map]: an answer of that service without error comes
    back unchanged, except that a nil record comes back as the empty
    record, and an error of that service comes back as an error of the
    client. *)
Theorem client_forwards_any_service (ft : Service)
    (net : string → option (gmap string (web.Request → web.Response)))
    (addr : string) (mux : gmap string (web.Request → web.Response)) :
  net addr = Some (RegisterHTTPHandlers ft mux) →
  (∀ corpus root path dir,
     Service_Dir ft corpus root path = (dir, None) →
     Service_Dir (WebClient net addr) corpus root path
     = (Some (default (srvpb.mkFileDirectory [] []) dir), None))
  ∧ (∀ corpus root path dir err,
       Service_Dir ft corpus root path = (dir, Some err) →
       is_Some (snd (Service_Dir (WebClient net addr) corpus root path)))
  ∧ (∀ cr, Service_CorporaRoots ft = (cr, None) →
       Service_CorporaRoots (WebClient net addr) = (cr, None))
  ∧ (∀ cr err, Service_CorporaRoots ft = (cr, Some err) →
       is_Some (snd (Service_CorporaRoots (WebClient net addr)))).
Proof.
  intros Hnet. split_and!.
  - intros corpus root path dir H. cbn. unfold webClient_Dir.
    rewrite (Call_registered_dir ft net addr mux) by done. rewrite H.
    by destruct dir.
  - intros corpus root path dir err H. cbn. unfold webClient_Dir.
    rewrite (Call_registered_dir ft net addr mux) by done. by rewrite H.
  - intros cr H. cbn. unfold webClient_CorporaRoots.
    rewrite (Call_registered_corpusRoots ft net addr mux) by done.
    by rewrite H.
  - intros cr err H. cbn. unfold webClient_CorporaRoots.
    rewrite (Call_registered_corpusRoots ft net addr mux) by done.
    by rewrite H.
Qed.

(** X16: against a server over an index built by insertions, the client
    returns the empty record exactly when the directory is not found
    locally: a record of such an index is never empty. *)
Theorem remote_empty_iff_not_found (fs : list spb.VName)
    (net : string → option (gmap string (web.Request → web.Response)))
    (addr : string) (mux : gmap string (web.Request → web.Response))
    (corpus root path : string) :
  net addr
  = Some (RegisterHTTPHandlers (Map_Service (AddFiles NewMap fs)) mux) →
  (Service_Dir (WebClient net addr) corpus root path
   = (Some (srvpb.mkFileDirectory [] []), None)
   ↔ Dir (AddFiles NewMap fs) corpus root path = (None, None)).
Proof.
  intros Hnet. cbn. unfold webClient_Dir.
  rewrite (Call_registered_dir _ net addr mux) by done. cbn.
  rewrite Dir_dir_at.
  destruct (dir_at (AddFiles NewMap fs) corpus root path) as [d|] eqn:E; [|done].
  split; [|done]. intros [= ->].
  by destruct (recorded_nonempty ToString URI_String fs _ _ _ _ E).
Qed.

End remote_properties.

Section order_properties.

Variable ToString : spb.VName → string.
Variable URI_String : kytheuri.URI → string.

Local Abbreviation AddFiles := (AddFiles ToString URI_String).

Lemma files_from_empty (fs : list spb.VName) (c r p t : string) :
  t ∈ files_at (AddFiles NewMap fs) c r p
  ↔ ∃ f, f ∈ fs ∧ in_dir c r p f ∧ ToString f = t.
Proof.
  rewrite (files_at_AddFiles ToString URI_String), elem_of_fold_addToSet.
  change (files_at NewMap c r p) with (@nil string).
  rewrite elem_of_nil, list_elem_of_fmap. split.
  - intros [[]|(f & -> & [Hin Hf]%list_elem_of_filter)]. by exists f.
  - intros (f & Hf & Hin & <-). right. exists f.
    split; [done |]. by apply list_elem_of_filter.
Qed.

Lemma subdirs_from_empty (fs : list spb.VName) (c r p t : string)
    (d : srvpb.FileDirectory) :
  dir_at (AddFiles NewMap fs) c r p = Some d →
  t ∈ srvpb.Subdirectory d
  ↔ ∃ q, q ≠ "/" ∧ filepath.Dir q = p
         ∧ is_Some (dir_at (AddFiles NewMap fs) c r q)
         ∧ t = URI_String (kytheuri.mkURI c r q).
Proof.
  intros Hd. split.
  - intros Ht.
    destruct (subdirs_recorded_AddFiles ToString URI_String NewMap fs
                (subdirs_recorded_NewMap URI_String) _ _ _ _ _ Hd Ht)
      as (q & ? & ? & ? & ?).
    by exists q.
  - intros (q & Hq & <- & [dq Hdq] & ->).
    destruct (rec_linked _ _ _ (recorded_from_empty ToString URI_String fs)
                _ _ _ _ Hdq Hq) as (parent & Hpar & Hin).
    rewrite Hd in Hpar. by injection Hpar as <-.
Qed.

Lemma duplicate_free_from_empty (fs : list spb.VName) :
  all_dirs duplicate_free (AddFiles NewMap fs).
Proof.
  apply all_dirs_AddFiles; [| | |apply all_dirs_NewMap].
  - split; apply NoDup_nil_2.
  - intros d str [HF HS]. split; [done | by apply addToSet_NoDup].
  - intros d str [HF HS]. split; [by apply addToSet_NoDup | done].
Qed.

(** X17: the index built from the empty one depends on the set of
    inserted files only, not on their order or on repetitions: two
    sequences with the same files record the same directories, and each
    directory lists the same files and the same subdirectories, up to the
    order inside the lists. *)
Theorem index_independent_of_insertion_order (fs1 fs2 : list spb.VName)
    (c r p : string) :
  (∀ f, f ∈ fs1 ↔ f ∈ fs2) →
  (is_Some (fst (Dir (AddFiles NewMap fs1) c r p))
   ↔ is_Some (fst (Dir (AddFiles NewMap fs2) c r p)))
  ∧ (∀ d1 d2,
       fst (Dir (AddFiles NewMap fs1) c r p) = Some d1 →
       fst (Dir (AddFiles NewMap fs2) c r p) = Some d2 →
       srvpb.FileTicket d1 ≡ₚ srvpb.FileTicket d2
       ∧ srvpb.Subdirectory d1 ≡ₚ srvpb.Subdirectory d2).
Proof.
  intros Hsame.
  assert (∀ q, is_Some (dir_at (AddFiles NewMap fs1) c r q)
               ↔ is_Some (dir_at (AddFiles NewMap fs2) c r q)) as Hkeys.
  { intros q.
    rewrite (rec_dir _ _ _ (recorded_from_empty ToString URI_String fs1)).
    rewrite (rec_dir _ _ _ (recorded_from_empty ToString URI_String fs2)).
    split; intros (f & Hf & ?); exists f; (split; [by apply Hsame | done]). }
  rewrite !Dir_dir_at. simpl. split; [apply Hkeys |].
  intros d1 d2 H1 H2.
  destruct (duplicate_free_from_empty fs1 _ _ _ _ H1) as [HF1 HS1].
  destruct (duplicate_free_from_empty fs2 _ _ _ _ H2) as [HF2 HS2].
  split; (apply NoDup_Permutation; [done | done |]); intros t.
  - assert (t ∈ srvpb.FileTicket d1 ↔ t ∈ files_at (AddFiles NewMap fs1) c r p)
      as -> by (unfold files_at; by rewrite H1).
    assert (t ∈ srvpb.FileTicket d2 ↔ t ∈ files_at (AddFiles NewMap fs2) c r p)
      as -> by (unfold files_at; by rewrite H2).
    rewrite !files_from_empty.
    split; intros (f & Hf & ?); exists f; (split; [by apply Hsame | done]).
  - rewrite (subdirs_from_empty fs1 c r p t d1 H1).
    rewrite (subdirs_from_empty fs2 c r p t d2 H2).
    split; intros (q & ? & ? & Hq & ?); exists q;
      (split_and!; [done | done | by apply Hkeys | done]).
Qed.

End order_properties.

(** ** Concrete runs of the further properties *)

Lemma addToSet_appends_unless_present_witness :
  addToSet ["a"; "b"] "c" = ["a"; "b"; "c"].
Proof.
  apply (addToSet_appends_unless_present ["a"; "b"] "c").
  apply (bool_decide_unpack _). vm_compute. exact I.
Defined.

Lemma AddFiles_keeps_records_witness :
  ∃ d', Dir (AddFiles demo_ToString demo_URI index_ab [file_abc]) "c" "" "/a"
        = (Some d', None)
        ∧ ["kythe://c?path=a/b.go?root="] ⊆ srvpb.FileTicket d'
        ∧ [] ⊆ srvpb.Subdirectory d'.
Proof.
  apply (AddFiles_keeps_records demo_ToString demo_URI index_ab [file_abc]
           "c" "" "/a"
           (srvpb.mkFileDirectory [] ["kythe://c?path=a/b.go?root="])).
  reflexivity.
Defined.

Lemma records_stay_duplicate_free_witness :
  all_dirs duplicate_free
    (AddFiles demo_ToString demo_URI NewMap [file_ab; file_ab; file_abc]).
Proof.
  apply (proj1 (records_stay_duplicate_free demo_ToString demo_URI NewMap
                  [file_ab; file_ab; file_abc])).
  intros c r p d. unfold dir_at, dirs_at. simpl. by rewrite lookup_empty.
Defined.

Lemma subdirectories_are_recorded_children_witness :
  "kythe://k?path=/a/b?root=" ∈ ["kythe://k?path=/a/b?root="]
  ↔ ∃ q, q ≠ "/" ∧ filepath.Dir q = "/a"
         ∧ is_Some (fst (Dir (AddFiles demo_ToString demo_URI NewMap [file_abc])
                           "k" "" q))
         ∧ "kythe://k?path=/a/b?root=" = demo_URI (kytheuri.mkURI "k" "" q).
Proof.
  apply (subdirectories_are_recorded_children demo_ToString demo_URI
           [file_abc] "k" "" "/a"
           (srvpb.mkFileDirectory ["kythe://k?path=/a/b?root="] [])).
  reflexivity.
Defined.

Lemma no_empty_record_witness :
  srvpb.FileTicket (srvpb.mkFileDirectory ["kythe://c?path=/a?root="] []) ≠ []
  ∨ srvpb.Subdirectory (srvpb.mkFileDirectory ["kythe://c?path=/a?root="] [])
    ≠ [].
Proof.
  apply (no_empty_record demo_ToString demo_URI [file_ab] "c" "" "/").
  reflexivity.
Defined.

Lemma ensureCorpusRoot_registers_pair_witness :
  ensureCorpusRoot index_ab "c" "" = index_ab.
Proof.
  apply (ensureCorpusRoot_registers_pair index_ab "c" "").
  eexists. vm_compute. reflexivity.
Defined.

Lemma ensureDir_records_without_files_witness :
  ensureDir demo_URI index_ab "c" "" "/a" = index_ab.
Proof.
  apply (proj1 (proj2 (proj2
           (ensureDir_records_without_files demo_URI index_ab "c" "" "/a")))).
  eexists. vm_compute. reflexivity.
Defined.

Lemma Dir_found_is_listed_witness :
  ∃ roots, srvpb.mkCorpus "c" roots ∈ fst (CorporaRoots index_ab) ∧ "" ∈ roots.
Proof.
  apply (Dir_found_is_listed index_ab "c" "" "/a"
           (srvpb.mkFileDirectory [] ["kythe://c?path=a/b.go?root="])).
  reflexivity.
Defined.

Lemma AddFile_lists_its_pair_witness :
  (∃ roots, srvpb.mkCorpus "c" roots
            ∈ fst (CorporaRoots (AddFile demo_ToString demo_URI index_ab file_abc))
            ∧ "" ∈ roots)
  ↔ (∃ roots, srvpb.mkCorpus "c" roots ∈ fst (CorporaRoots index_ab)
              ∧ "" ∈ roots).
Proof.
  apply (AddFile_lists_its_pair demo_ToString demo_URI index_ab file_abc).
  left. vm_compute. discriminate.
Defined.

Lemma Populate_indexes_delivered_files_witness :
  ∃ d, Dir (fst (Populate demo_ToString demo_URI "/kythe/node/kind" "file"
                   NewMap failing_store)) "c" "" "/a"
       = (Some d, None)
       ∧ demo_ToString file_ab ∈ srvpb.FileTicket d.
Proof.
  apply (proj1 (Populate_indexes_delivered_files demo_ToString demo_URI
                  "/kythe/node/kind" "file" NewMap failing_store)
           (spb.mkEntry file_ab "/kythe/node/kind" "file")).
  - vm_compute. apply list_elem_of_here.
  - split; reflexivity.
Defined.

Lemma Populate_keeps_records_witness :
  ∃ d', Dir (fst (Populate demo_ToString demo_URI "/kythe/node/kind" "file"
                    index_ab failing_store)) "c" "" "/a"
        = (Some d', None)
        ∧ ["kythe://c?path=a/b.go?root="] ⊆ srvpb.FileTicket d'
        ∧ [] ⊆ srvpb.Subdirectory d'.
Proof.
  apply (Populate_keeps_records demo_ToString demo_URI "/kythe/node/kind"
           "file" index_ab failing_store "c" "" "/a"
           (srvpb.mkFileDirectory [] ["kythe://c?path=a/b.go?root="])).
  reflexivity.
Defined.

Lemma webClient_reply_never_nil_witness :
  fst (webClient_Dir net_ab "nowhere:1" "c" "" "/a")
  = Some (srvpb.mkFileDirectory [] [])
  ∧ is_Some (snd (webClient_Dir net_ab "nowhere:1" "c" "" "/a"))
  ∧ is_Some (snd (webClient_CorporaRoots net_ab "nowhere:1")).
Proof.
  apply (webClient_reply_never_nil net_ab "nowhere:1" "c" "" "/a").
  reflexivity.
Defined.

Lemma client_forwards_any_service_witness :
  Service_Dir (WebClient net_ab "localhost:8080") "c" "" "/nowhere"
  = (Some (default (srvpb.mkFileDirectory [] []) None), None).
Proof.
  apply (client_forwards_any_service
           (Map_Service (AddFiles demo_ToString demo_URI NewMap [file_ab]))
           net_ab "localhost:8080" ∅).
  - reflexivity.
  - reflexivity.
Defined.

Lemma remote_empty_iff_not_found_witness :
  Service_Dir (WebClient net_ab "localhost:8080") "c" "" "a"
  = (Some (srvpb.mkFileDirectory [] []), None)
  ↔ Dir (AddFiles demo_ToString demo_URI NewMap [file_ab]) "c" "" "a"
    = (None, None).
Proof.
  apply (remote_empty_iff_not_found demo_ToString demo_URI [file_ab] net_ab
           "localhost:8080" ∅ "c" "" "a").
  reflexivity.
Defined.

Lemma index_independent_of_insertion_order_witness :
  is_Some (fst (Dir (AddFiles demo_ToString demo_URI NewMap
                       [file_ab; file_abc; file_ab]) "k" "" "/a"))
  ↔ is_Some (fst (Dir (AddFiles demo_ToString demo_URI NewMap
                         [file_abc; file_ab]) "k" "" "/a")).
Proof.
  apply (index_independent_of_insertion_order demo_ToString demo_URI
           [file_ab; file_abc; file_ab] [file_abc; file_ab] "k" "" "/a").
  intros f. rewrite !elem_of_cons, elem_of_nil. tauto.
Defined.
